(** * AlgoPulse editor: the Judge0 execution client and the template loader

    A shallow embedding of [lib/judge0.ts] (class [Judge0Service]), of
    [lib/templates.ts] and of the handlers of the editor component
    ([CodeEditor]), together with the browser built-ins they call
    ([btoa], [atob], [escape], [unescape], [encodeURIComponent],
    [decodeURIComponent], [String.prototype.includes], [fetch]).

    - A JavaScript string is the list of its UTF-16 code units.
    - A JavaScript number that the client reads (status id, HTTP status,
      memory in KB) is an integer of [Z]; the service sends JSON integers.
    - A [throw] is the [Throw] completion of [result]; [try]/[catch] is a
      match on the completion.
    - [fetch] and [setTimeout] act on an explicit [world]: the remote side
      answers the n-th request through a function, every request and every
      delay is appended to a trace.
    - [console.log], [console.warn] and [console.error] only write to the
      developer console; they are left out. *)

From Stdlib Require Import Ascii String DecimalString.
From Stdlib Require Import NArith ZArith List Bool Lia.
Import ListNotations.

Local Open Scope N_scope.

(* ------------------------------------------------------------------ *)
(** ** JavaScript values *)

Module JS.

(** UTF-16 code units; every unit of a real string is below [65536]. *)
Definition jsstring := list N.

(** An ASCII literal of the source. *)
Definition lit (s : String.string) : jsstring :=
  map Ascii.N_of_ascii (String.list_ascii_of_string s).
Arguments lit s%_string.

(** The escape [\n] of the source literals. *)
Definition nl : jsstring := [10].

Inductive error_class :=
| Error | TypeError | SyntaxError | URIError | DOMException.

Record exn := mkExn { exn_class : error_class; message : jsstring }.

(** [e instanceof Error]: every built-in error class, and [DOMException],
    has [Error.prototype] on its prototype chain. *)
Definition instanceof_Error (e : exn) : bool :=
  match exn_class e with
  | Error | TypeError | SyntaxError | URIError | DOMException => true
  end.

Inductive result (A : Type) :=
| Ok (a : A)
| Throw (e : exn).
Arguments Ok {A} a.
Arguments Throw {A} e.

Definition bind {A B} (r : result A) (k : A -> result B) : result B :=
  match r with
  | Ok a => k a
  | Throw e => Throw e
  end.

(** [try { body } catch (error) { handler }] *)
Definition try_catch {A} (body : result A) (handler : exn -> result A) : result A :=
  match body with
  | Ok a => Ok a
  | Throw e => handler e
  end.

Definition is_ok {A} (r : result A) : bool :=
  match r with Ok _ => true | Throw _ => false end.

(** [s.startsWith(p)] *)
Fixpoint starts_with (s p : jsstring) {struct p} : bool :=
  match p, s with
  | [], _ => true
  | _ :: _, [] => false
  | x :: p', y :: s' => (x =? y) && starts_with s' p'
  end.

(** [s.includes(p)] *)
Fixpoint includes (s p : jsstring) : bool :=
  starts_with s p ||
  match s with
  | [] => false
  | _ :: s' => includes s' p
  end.

(** [s.endsWith(p)] *)
Definition ends_with (s p : jsstring) : bool :=
  starts_with (rev s) (rev p).

(** [String(n)] for an integer [n] (plain decimal below [10^21]). *)
Definition Number_toString (n : Z) : jsstring :=
  lit (DecimalString.NilZero.string_of_int (Z.to_int n)).

(** JavaScript truthiness of the primitives the client tests. *)
Definition truthy_string (s : jsstring) : bool :=
  match s with [] => false | _ :: _ => true end.

Definition truthy_number (n : Z) : bool := negb (Z.eqb n 0).

(** [x || d] on an optional string: [undefined], [null] and the empty
    string are falsy. *)
Definition truthy_opt_string (o : option jsstring) : bool :=
  match o with
  | Some s => truthy_string s
  | None => false
  end.

End JS.

Notation "x <- r ;; k" := (JS.bind r (fun x => k))
  (at level 61, r at next level, right associativity).

(* ------------------------------------------------------------------ *)
(** ** The built-in codecs *)

Module Codec.
Import JS.

Definition in_range (lo hi c : N) : bool := (lo <=? c) && (c <=? hi).
Definition is_alpha (c : N) : bool := in_range 65 90 c || in_range 97 122 c.
Definition is_digit (c : N) : bool := in_range 48 57 c.
Definition one_of (set : jsstring) (c : N) : bool := existsb (N.eqb c) set.

Definition percent : N := 37.

(** *** Hexadecimal digits *)

(** Upper-case digit of a value below 16, as [escape] and
    [encodeURIComponent] write it. *)
Definition hex_digit (v : N) : N := if v <? 10 then 48 + v else 55 + v.

Definition hex_value (c : N) : option N :=
  if is_digit c then Some (c - 48)
  else if in_range 65 70 c then Some (c - 55)
  else if in_range 97 102 c then Some (c - 87)
  else None.

(** The value of the two hexadecimal digits [a b], when both are. *)
Definition hex_byte (a b : N) : option N :=
  match hex_value a, hex_value b with
  | Some x, Some y => Some (16 * x + y)
  | _, _ => None
  end.

(** [%XY] for one octet. *)
Definition pct (b : N) : jsstring :=
  [percent; hex_digit (b / 16); hex_digit (b mod 16)].

(** *** UTF-16 and UTF-8 *)

Definition is_lead (c : N) : bool := in_range 55296 56319 c.   (* D800..DBFF *)
Definition is_trail (c : N) : bool := in_range 56320 57343 c.  (* DC00..DFFF *)

(** UTF16SurrogatePairToCodePoint *)
Definition pair_code_point (lead trail : N) : N :=
  (lead - 55296) * 1024 + (trail - 56320) + 65536.

(** UTF16EncodeCodePoint *)
Definition utf16 (cp : N) : jsstring :=
  if cp <=? 65535 then [cp]
  else [(cp - 65536) / 1024 + 55296; (cp - 65536) mod 1024 + 56320].

(** The UTF-8 octets of a code point. *)
Definition utf8 (cp : N) : list N :=
  if cp <? 128 then [cp]
  else if cp <? 2048 then [192 + cp / 64; 128 + cp mod 64]
  else if cp <? 65536 then
    [224 + cp / 4096; 128 + (cp / 64) mod 64; 128 + cp mod 64]
  else
    [240 + cp / 262144; 128 + (cp / 4096) mod 64;
     128 + (cp / 64) mod 64; 128 + cp mod 64].

Definition is_continuation (b : N) : bool := in_range 128 191 b.

(** The code point of a two-, three- or four-octet sequence, when the
    sequence is valid UTF-8 (continuation octets, shortest form, no
    surrogate, at most U+10FFFF). *)
Definition utf8_value2 (b0 b1 : N) : option N :=
  let v := (b0 - 192) * 64 + (b1 - 128) in
  if is_continuation b1 && (128 <=? v) then Some v else None.

Definition utf8_value3 (b0 b1 b2 : N) : option N :=
  let v := (b0 - 224) * 4096 + (b1 - 128) * 64 + (b2 - 128) in
  if is_continuation b1 && is_continuation b2 && (2048 <=? v)
     && negb (in_range 55296 57343 v)
  then Some v else None.

Definition utf8_value4 (b0 b1 b2 b3 : N) : option N :=
  let v := (b0 - 240) * 262144 + (b1 - 128) * 4096
           + (b2 - 128) * 64 + (b3 - 128) in
  if is_continuation b1 && is_continuation b2 && is_continuation b3
     && in_range 65536 1114111 v
  then Some v else None.

(** Well-formed UTF-16 ([String.prototype.isWellFormed]): code units below
    [65536], every lead surrogate followed by a trail surrogate, no other
    surrogate. *)
Fixpoint well_formed (s : jsstring) : bool :=
  match s with
  | [] => true
  | c :: t =>
    if is_lead c then
      match t with
      | d :: t' => is_trail d && well_formed t'
      | [] => false
      end
    else negb (is_trail c) && (c <? 65536) && well_formed t
  end.

(** *** [encodeURIComponent] and [decodeURIComponent] *)

Definition uri_unreserved (c : N) : bool :=
  is_alpha c || is_digit c || one_of (lit "-_.!~*'()") c.

Definition uri_malformed : exn := mkExn URIError (lit "URI malformed").

Definition pct_octets (bs : list N) : jsstring := flat_map pct bs.

(** Encode(string, unreservedSet): an unreserved unit is copied; any other
    code point is written as the [%XY] of its UTF-8 octets; an unpaired
    surrogate throws a URIError. *)
Fixpoint encodeURIComponent (s : jsstring) : result jsstring :=
  match s with
  | [] => Ok []
  | c :: t =>
    if uri_unreserved c then
      r <- encodeURIComponent t ;; Ok (c :: r)
    else if is_lead c then
      match t with
      | d :: t' =>
        if is_trail d then
          r <- encodeURIComponent t' ;;
          Ok (pct_octets (utf8 (pair_code_point c d)) ++ r)
        else Throw uri_malformed
      | [] => Throw uri_malformed
      end
    else if is_trail c then Throw uri_malformed
    else
      r <- encodeURIComponent t ;; Ok (pct_octets (utf8 c) ++ r)
  end.

(** A continuation escape [%XY] read from three code units. *)
Definition pct_octet (p a b : N) : option N :=
  if p =? percent then hex_byte a b else None.

(** Decode(string, reservedSet) with the empty reserved set: a unit other
    than [%] is copied; [%XY] with a leading octet announces a sequence of
    one to four escaped octets, which must be valid UTF-8 and yields the
    UTF-16 units of its code point. *)
Fixpoint decodeURIComponent (s : jsstring) : result jsstring :=
  match s with
  | [] => Ok []
  | c :: t =>
    if c =? percent then
      match t with
      | a :: b :: t1 =>
        match hex_byte a b with
        | None => Throw uri_malformed
        | Some b0 =>
          if b0 <? 128 then
            r <- decodeURIComponent t1 ;; Ok (b0 :: r)
          else if b0 <? 192 then Throw uri_malformed
          else if b0 <? 224 then
            match t1 with
            | p1 :: a1 :: c1 :: t2 =>
              match pct_octet p1 a1 c1 with
              | Some b1 =>
                match utf8_value2 b0 b1 with
                | Some v => r <- decodeURIComponent t2 ;; Ok (utf16 v ++ r)
                | None => Throw uri_malformed
                end
              | None => Throw uri_malformed
              end
            | _ => Throw uri_malformed
            end
          else if b0 <? 240 then
            match t1 with
            | p1 :: a1 :: c1 :: p2 :: a2 :: c2 :: t2 =>
              match pct_octet p1 a1 c1, pct_octet p2 a2 c2 with
              | Some b1, Some b2 =>
                match utf8_value3 b0 b1 b2 with
                | Some v => r <- decodeURIComponent t2 ;; Ok (utf16 v ++ r)
                | None => Throw uri_malformed
                end
              | _, _ => Throw uri_malformed
              end
            | _ => Throw uri_malformed
            end
          else if b0 <? 248 then
            match t1 with
            | p1 :: a1 :: c1 :: p2 :: a2 :: c2 :: p3 :: a3 :: c3 :: t2 =>
              match pct_octet p1 a1 c1, pct_octet p2 a2 c2,
                    pct_octet p3 a3 c3 with
              | Some b1, Some b2, Some b3 =>
                match utf8_value4 b0 b1 b2 b3 with
                | Some v => r <- decodeURIComponent t2 ;; Ok (utf16 v ++ r)
                | None => Throw uri_malformed
                end
              | _, _, _ => Throw uri_malformed
              end
            | _ => Throw uri_malformed
            end
          else Throw uri_malformed
        end
      | _ => Throw uri_malformed
      end
    else
      r <- decodeURIComponent t ;; Ok (c :: r)
  end.

(** *** [escape] and [unescape] *)

Definition escape_unescaped (c : N) : bool :=
  is_alpha c || is_digit c || one_of (lit "@*_+-./") c.

Definition escape_unit (c : N) : jsstring :=
  if escape_unescaped c then [c]
  else if c <? 256 then pct c
  else [percent; 117;
        hex_digit (c / 4096); hex_digit ((c / 256) mod 16);
        hex_digit ((c / 16) mod 16); hex_digit (c mod 16)].

Definition escape (s : jsstring) : jsstring := flat_map escape_unit s.

Definition hex_unit (h1 h2 h3 h4 : N) : option N :=
  match hex_byte h1 h2, hex_byte h3 h4 with
  | Some x, Some y => Some (256 * x + y)
  | _, _ => None
  end.

(** [unescape]: [%uXXXX] and [%XX] are replaced by the code unit they
    name, everything else is copied. *)
Fixpoint unescape (s : jsstring) : jsstring :=
  match s with
  | [] => []
  | c :: t =>
    if c =? percent then
      match t with
      | a :: t1 =>
        match t1 with
        | b :: t2 =>
          let two_digits :=
            match hex_byte a b with
            | Some v => v :: unescape t2
            | None => c :: unescape t
            end in
          if a =? 117 then
            match t2 with
            | h2 :: h3 :: h4 :: t5 =>
              match hex_unit b h2 h3 h4 with
              | Some v => v :: unescape t5
              | None => c :: unescape t
              end
            | _ => two_digits
            end
          else two_digits
        | [] => c :: unescape t
        end
      | [] => [c]
      end
    else c :: unescape t
  end.

(** *** [btoa] and [atob] *)

Definition equals_sign : N := 61.

(** The base64 alphabet: A-Z, a-z, 0-9, [+], [/]. *)
Definition b64_char (v : N) : N :=
  if v <? 26 then 65 + v
  else if v <? 52 then 71 + v
  else if v <? 62 then v - 4
  else if v =? 62 then 43
  else 47.

Definition b64_value (c : N) : option N :=
  if in_range 65 90 c then Some (c - 65)
  else if in_range 97 122 c then Some (c - 71)
  else if is_digit c then Some (c + 4)
  else if c =? 43 then Some 62
  else if c =? 47 then Some 63
  else None.

(** Base64 with padding (RFC 4648, section 4) of a list of octets. *)
Fixpoint b64_encode (bs : list N) : jsstring :=
  match bs with
  | [] => []
  | [a] =>
    [b64_char (a / 4); b64_char ((a mod 4) * 16); equals_sign; equals_sign]
  | [a; b] =>
    [b64_char (a / 4); b64_char ((a mod 4) * 16 + b / 16);
     b64_char ((b mod 16) * 4); equals_sign]
  | a :: b :: c :: rest =>
    b64_char (a / 4) :: b64_char ((a mod 4) * 16 + b / 16)
    :: b64_char ((b mod 16) * 4 + c / 64) :: b64_char (c mod 64)
    :: b64_encode rest
  end.

Definition invalid_character_btoa : exn :=
  mkExn DOMException
    (lit "The string to be encoded contains characters outside of the Latin1 range.").

Definition invalid_character_atob : exn :=
  mkExn DOMException (lit "The string to be decoded is not correctly encoded.").

(** [btoa]: throws on a code unit above U+00FF, else base64 of the units
    read as octets. *)
Definition btoa (s : jsstring) : result jsstring :=
  if forallb (fun c => c <=? 255) s then Ok (b64_encode s)
  else Throw invalid_character_btoa.

Definition is_ascii_whitespace (c : N) : bool :=
  (c =? 9) || (c =? 10) || (c =? 12) || (c =? 13) || (c =? 32).

(** Step 2 of forgiving-base64 decode: when the length is a multiple of
    four, one or two trailing [=] are dropped. *)
Definition strip_padding (data : jsstring) : jsstring :=
  if N.of_nat (length data) mod 4 =? 0 then
    match rev data with
    | x :: y :: r =>
      if x =? equals_sign then
        if y =? equals_sign then rev r else rev (y :: r)
      else data
    | [x] => if x =? equals_sign then [] else data
    | [] => data
    end
  else data.

(** The alphabet values of all units, or [None] when one unit is outside
    the alphabet. *)
Fixpoint b64_values (data : jsstring) : option (list N) :=
  match data with
  | [] => Some []
  | c :: t =>
    match b64_value c, b64_values t with
    | Some v, Some vs => Some (v :: vs)
    | _, _ => None
    end
  end.

(** The octets of a list of six-bit values: 24 bits give three octets; a
    remainder of 12 bits gives one octet, of 18 bits two octets, the low
    bits being discarded. *)
Fixpoint b64_octets (vs : list N) : list N :=
  match vs with
  | a :: b :: c :: d :: rest =>
    (a * 4 + b / 16) :: ((b mod 16) * 16 + c / 4) :: ((c mod 4) * 64 + d)
    :: b64_octets rest
  | [a; b; c] => [a * 4 + b / 16; (b mod 16) * 16 + c / 4]
  | [a; b] => [a * 4 + b / 16]
  | _ => []
  end.

(** [atob]: forgiving-base64 decode; a failure throws. Lengths are
    counted in code units: a string where that differs from the count of
    code points holds a surrogate, which is outside the alphabet, and
    fails either way. *)
Definition atob (s : jsstring) : result jsstring :=
  let data := strip_padding (filter (fun c => negb (is_ascii_whitespace c)) s) in
  if N.of_nat (length data) mod 4 =? 1 then Throw invalid_character_atob
  else
    match b64_values data with
    | Some vs => Ok (b64_octets vs)
    | None => Throw invalid_character_atob
    end.

End Codec.

(* ------------------------------------------------------------------ *)
(** ** [fetch], [setTimeout] and the world they act on *)

Module Http.
Import JS.

Record request := mkRequest {
  method : jsstring;
  url : jsstring;
  headers : list (jsstring * jsstring);
  (** the fields of the object given to [JSON.stringify], if any *)
  body : list (jsstring * jsstring)
}.

Record response := mkResponse {
  status : Z;          (* response.status *)
  text : jsstring      (* await response.text() *)
}.

(** [response.ok] *)
Definition ok (r : response) : bool :=
  (200 <=? status r)%Z && (status r <=? 299)%Z.

(** What a call of [fetch] settles to: the promise rejects (network
    failure), or it resolves to a response. *)
Inductive reply :=
| Rejected (e : exn)
| Resolved (r : response).

Inductive event :=
| Fetch (rq : request)
| Sleep (ms : Z).

(** The remote side answers a request knowing how many requests came
    before it; the trace records what the client did, in order. The client
    is deterministic, so the answers in the order of the requests fix a
    run: nothing is lost by leaving the time of a request out. *)
Record world := mkWorld {
  remote : nat -> request -> reply;
  trace : list event
}.

Definition is_fetch (e : event) : bool :=
  match e with Fetch _ => true | Sleep _ => false end.

Definition requests_sent (w : world) : nat :=
  List.length (filter is_fetch (trace w)).

Definition record (e : event) (w : world) : world :=
  mkWorld (remote w) (trace w ++ [e]).

(** An asynchronous computation: it runs in a world and completes
    normally or abruptly. *)
Definition async (A : Type) := world -> result A * world.

Definition ret {A} (a : A) : async A := fun w => (Ok a, w).
Definition throw {A} (e : exn) : async A := fun w => (Throw e, w).
Definition lift {A} (r : result A) : async A := fun w => (r, w).

Definition bind {A B} (c : async A) (k : A -> async B) : async B :=
  fun w =>
    match c w with
    | (Ok a, w') => k a w'
    | (Throw e, w') => (Throw e, w')
    end.

Definition try_catch {A} (c : async A) (handler : exn -> async A) : async A :=
  fun w =>
    match c w with
    | (Ok a, w') => (Ok a, w')
    | (Throw e, w') => handler e w'
    end.

(** [await fetch(url, options)] *)
Definition fetch (rq : request) : async response :=
  fun w =>
    match remote w (requests_sent w) rq with
    | Rejected e => (Throw e, record (Fetch rq) w)
    | Resolved r => (Ok r, record (Fetch rq) w)
    end.

(** [await new Promise((resolve) => setTimeout(resolve, ms))] *)
Definition sleep (ms : Z) : async unit :=
  fun w => (Ok tt, record (Sleep ms) w).

End Http.

Notation "x <~ c ;; k" := (Http.bind c (fun x => k))
  (at level 61, c at next level, right associativity).

(* ------------------------------------------------------------------ *)
(** ** [lib/judge0.ts] *)

Module Judge0.
Import JS Codec Http.

Record Status := mkStatus {
  id : Z;
  description : jsstring
}.

(** [interface ExecutionResult]; an optional field that is [undefined] or
    [null] is [None]. *)
Record ExecutionResult := mkExecutionResult {
  stdout : option jsstring;
  stderr : option jsstring;
  compile_output : option jsstring;
  status : Status;
  time : option jsstring;
  memory : option Z
}.

(** The fields [submitCode] reads in the answer to a submission. *)
Record SubmissionReply := mkSubmissionReply {
  token : option jsstring;
  error : option jsstring;
  reply_message : option jsstring
}.

(** The three [process.env] entries read by the constructor. *)
Record Env := mkEnv {
  NEXT_PUBLIC_JUDGE0_API_KEY : option jsstring;
  NEXT_PUBLIC_JUDGE0_API_HOST : option jsstring;
  NEXT_PUBLIC_JUDGE0_API_URL : option jsstring
}.

Record Judge0Service := mkJudge0Service {
  apiKey : jsstring;
  apiHost : jsstring;
  apiUrl : jsstring
}.

(** [x || d] for an optional string. *)
Definition or_else (o : option jsstring) (d : jsstring) : jsstring :=
  match o with
  | Some s => if truthy_string s then s else d
  | None => d
  end.

(** The value of an optional string inside [if (x) { ... }]. *)
Definition present (o : option jsstring) : option jsstring :=
  match o with
  | Some s => if truthy_string s then Some s else None
  | None => None
  end.

Definition constructor (env : Env) : Judge0Service :=
  mkJudge0Service
    (or_else (NEXT_PUBLIC_JUDGE0_API_KEY env) [])
    (or_else (NEXT_PUBLIC_JUDGE0_API_HOST env) [])
    (or_else (NEXT_PUBLIC_JUDGE0_API_URL env) []).

Definition encodeBase64 (str : jsstring) : result jsstring :=
  JS.try_catch
    (e <- encodeURIComponent str ;; btoa (unescape e))
    (fun _ => btoa str).

Definition decodeBase64 (str : jsstring) : result jsstring :=
  JS.try_catch
    (b <- atob str ;; decodeURIComponent (escape b))
    (fun _ => atob str).

Definition not_configured : exn :=
  mkExn Error (lit "Judge0 API key not configured. Please check your .env.local file.").

Definition no_token : exn :=
  mkExn Error (lit "No token received from Judge0 API").

Definition timed_out : jsstring :=
  lit "Error: Code execution timed out after 30 seconds".

Definition maxAttempts : nat := 30.

Definition auth_headers (this : Judge0Service) : list (jsstring * jsstring) :=
  [(lit "X-RapidAPI-Key", apiKey this); (lit "X-RapidAPI-Host", apiHost this)].

Definition submission_request (this : Judge0Service)
    (languageId : Z) (source_code stdin : jsstring) : request :=
  mkRequest (lit "POST")
    (apiUrl this ++ lit "/submissions?base64_encoded=true&wait=false")
    ((lit "Content-Type", lit "application/json") :: auth_headers this)
    [(lit "language_id", Number_toString languageId);
     (lit "source_code", source_code);
     (lit "stdin", stdin)].

Definition result_request (this : Judge0Service) (token : jsstring) : request :=
  mkRequest (lit "GET")
    (apiUrl this ++ lit "/submissions/" ++ token
       ++ lit "?base64_encoded=true&fields=*")
    (auth_headers this)
    [].

(** [s += " - " + x] when [x] is truthy. *)
Definition append_detail (s : jsstring) (x : option jsstring) : jsstring :=
  match present x with
  | Some d => s ++ lit " - " ++ d
  | None => s
  end.

Definition http_error (r : response) : jsstring :=
  lit "HTTP error! status: " ++ Number_toString (Http.status r).

(** The four texts the catch-all of [executeCode] returns. *)
Definition invalid_key_text : jsstring :=
  lit "Error: Invalid API key. Please check your Judge0 API configuration.".
Definition forbidden_text : jsstring :=
  lit "Error: API access forbidden. Please check your Judge0 subscription.".
Definition rate_limit_text : jsstring :=
  lit "Error: Rate limit exceeded. Please try again later.".
Definition not_configured_text : jsstring :=
  lit "Error: Judge0 API key not configured. Please add NEXT_PUBLIC_JUDGE0_API_KEY to your .env.local file.".

(** The catch-all of [executeCode]. *)
Definition translate (error : exn) : async jsstring :=
  if instanceof_Error error then
    if includes (message error) (lit "401") then ret invalid_key_text
    else if includes (message error) (lit "403") then ret forbidden_text
    else if includes (message error) (lit "429") then ret rate_limit_text
    else if includes (message error) (lit "API key not configured") then
      ret not_configured_text
    else throw error
  else throw error.

(** [output += prefix + this.decodeBase64(field)] under [if (field)]. *)
Definition append_decoded (output prefix : jsstring) (field : option jsstring)
  : result jsstring :=
  match present field with
  | Some s => d <- decodeBase64 s ;; Ok (output ++ prefix ++ d)
  | None => Ok output
  end.

(** First part of [formatOutput] ("Handle different status codes"): the
    value of [output] after the chain of [if (result.status.id === ...)]. *)
Definition narrative (r : ExecutionResult) : result jsstring :=
  let code := id (status r) in
  (if code =? 3 then
     match present (stdout r) with
     | Some s => d <- decodeBase64 s ;; Ok (lit "Output:" ++ nl ++ d)
     | None => Ok (lit "Code executed successfully (no output)")
     end
   else if code =? 4 then
     append_decoded (lit "Wrong Answer" ++ nl) (lit "Output:" ++ nl) (stdout r)
   else if code =? 5 then
     Ok (lit "Time Limit Exceeded" ++ nl)
   else if code =? 6 then
     append_decoded (lit "Compilation Error:" ++ nl) [] (compile_output r)
   else if code =? 7 then
     append_decoded (lit "Runtime Error (Segmentation Fault)" ++ nl)
       (lit "Error Details:" ++ nl) (stderr r)
   else if code =? 8 then
     Ok (lit "Runtime Error (File Size Limit Exceeded)" ++ nl)
   else if code =? 9 then
     Ok (lit "Runtime Error (Floating Point Exception)" ++ nl)
   else if code =? 10 then
     Ok (lit "Runtime Error (Aborted)" ++ nl)
   else if code =? 11 then
     append_decoded (lit "Runtime Error (Non-zero Exit Code)" ++ nl)
       (lit "Error Details:" ++ nl) (stderr r)
   else if code =? 12 then
     append_decoded (lit "Runtime Error" ++ nl)
       (lit "Error Details:" ++ nl) (stderr r)
   else if code =? 13 then
     Ok (lit "Internal Error: Please try again later" ++ nl)
   else if code =? 14 then
     Ok (lit "Execution Format Error" ++ nl)
   else
     o1 <- append_decoded
             (lit "Unknown Status (" ++ Number_toString code ++ lit "): "
                ++ description (status r) ++ nl)
             (nl ++ lit "Output:" ++ nl) (stdout r) ;;
     o2 <- append_decoded o1 (nl ++ lit "Errors:" ++ nl) (stderr r) ;;
     append_decoded o2 (nl ++ lit "Compilation:" ++ nl) (compile_output r))%Z.

(** [result.memory || "N/A"], converted to a string by the template. *)
Definition memory_or_NA (m : option Z) : jsstring :=
  match m with
  | Some n => if truthy_number n then Number_toString n else lit "N/A"
  | None => lit "N/A"
  end.

(** Second part of [formatOutput] ("Add execution info"): the four
    strings appended to [output]. *)
Definition summary (r : ExecutionResult) : jsstring :=
  (nl ++ nl ++ lit "--- Execution Info ---")
  ++ (nl ++ lit "Status: " ++ description (status r) ++ lit " ("
        ++ Number_toString (id (status r)) ++ lit ")")
  ++ (nl ++ lit "Time: " ++ or_else (time r) (lit "N/A") ++ lit "s")
  ++ (nl ++ lit "Memory: " ++ memory_or_NA (memory r) ++ lit " KB").

Definition formatOutput (r : ExecutionResult) : result jsstring :=
  output <- narrative r ;;
  Ok (output ++ summary r).

Section Service.

(** [JSON.parse(responseText)], read at the type the caller gives it: the
    answer to a submission, or an [ExecutionResult]. A text that is not
    JSON throws a SyntaxError. *)
Variable JSON_parse_submission : jsstring -> result SubmissionReply.
Variable JSON_parse_result : jsstring -> result ExecutionResult.

Variable this : Judge0Service.

Definition submitCode (languageId : Z) (sourceCode stdin : jsstring)
  : async jsstring :=
  if negb (truthy_string (apiKey this)) then throw not_configured
  else
    Http.try_catch
      (source_code <~ lift (encodeBase64 sourceCode) ;;
       stdin64 <~ lift (if truthy_string stdin then encodeBase64 stdin
                        else Ok []) ;;
       response <~ fetch (submission_request this languageId source_code stdin64) ;;
       let responseText := text response in
       if negb (ok response) then
         let errorMessage :=
           JS.try_catch
             (errorData <- JSON_parse_submission responseText ;;
              Ok (append_detail
                    (append_detail (http_error response) (error errorData))
                    (reply_message errorData)))
             (fun _ => Ok (http_error response ++ lit " - " ++ responseText)) in
         message <~ lift errorMessage ;;
         throw (mkExn Error message)
       else
         result <~ lift (JSON_parse_submission responseText) ;;
         match present (token result) with
         | None => throw no_token
         | Some t => ret t
         end)
      (fun error => throw error).

Definition getResult (token : jsstring) : async ExecutionResult :=
  if negb (truthy_string (apiKey this)) then throw not_configured
  else
    Http.try_catch
      (response <~ fetch (result_request this token) ;;
       let responseText := text response in
       if negb (ok response) then
         throw (mkExn Error (http_error response ++ lit " - " ++ responseText))
       else lift (JSON_parse_result responseText))
      (fun error => throw error).

(** The [while (attempts < maxAttempts)] loop; [remaining] is
    [maxAttempts - attempts]. *)
Fixpoint poll (remaining : nat) (token : jsstring) : async jsstring :=
  match remaining with
  | O => ret timed_out
  | S remaining' =>
    _ <~ sleep 1000 ;;
    result <~ getResult token ;;
    if (id (status result) <=? 2)%Z then poll remaining' token
    else lift (formatOutput result)
  end.

Definition executeCode (languageId : Z) (sourceCode stdin : jsstring)
  : async jsstring :=
  Http.try_catch
    (token <~ submitCode languageId sourceCode stdin ;;
     poll maxAttempts token)
    translate.

End Service.

End Judge0.

(* ------------------------------------------------------------------ *)
(** ** [lib/templates.ts] *)

Module Templates.
Import JS Http.

Record CodeTemplate := mkCodeTemplate {
  value : jsstring;
  label : jsstring;
  judge0Id : Z;
  description : jsstring;
  defaultCode : jsstring;
  exampleInput : jsstring;
  exampleOutput : jsstring
}.

Definition languages : list jsstring :=
  [lit "javascript"; lit "python"; lit "java"; lit "cpp"; lit "csharp"; lit "go"].

Definition template_request (language : jsstring) : request :=
  mkRequest (lit "GET") (lit "/templates/" ++ language ++ lit ".json") [] [].

Section Loader.

(** [await response.json()]: the body read as a descriptor ([None] for
    the JSON [null]), or a rejection when the body is not JSON. *)
Variable response_json : jsstring -> result (option CodeTemplate).

Definition loadTemplate (language : jsstring) : async (option CodeTemplate) :=
  Http.try_catch
    (response <~ fetch (template_request language) ;;
     if negb (ok response) then
       throw (mkExn Error (lit "Failed to load template for " ++ language))
     else
       data <~ lift (response_json (text response)) ;;
       ret data)
    (fun _ => ret None).

(** The [for (const lang of languages)] loop with its accumulator. *)
Fixpoint load_each (langs : list jsstring) (templates : list CodeTemplate)
  : async (list CodeTemplate) :=
  match langs with
  | [] => ret templates
  | lang :: rest =>
    template <~ loadTemplate lang ;;
    load_each rest
      match template with
      | Some t => templates ++ [t]
      | None => templates
      end
  end.

Definition loadAllTemplates : async (list CodeTemplate) :=
  load_each languages [].

End Loader.

End Templates.

(* ------------------------------------------------------------------ *)
(** ** The editor component ([CodeEditor]) *)

(** The state of the component is the record of its [useState] values; a
    handler is read as one step, from the state it starts in to the state
    after its last setter. The renders in between, and events that arrive
    while a handler awaits, are not modelled; neither is the markup. *)

Module Editor.
Import JS Http.

(** The values held by the [useState] hooks of the component. *)
Record State := mkState {
  templates : list Templates.CodeTemplate;
  selectedLanguage : jsstring;
  currentTemplate : option Templates.CodeTemplate;
  code : jsstring;
  output : jsstring;
  input : jsstring;
  isRunning : bool;
  isLoading : bool
}.

Definition idle_text : jsstring :=
  lit "Click 'Run Code' to see the output here...".

(** The initial values given to the hooks. *)
Definition initial : State :=
  mkState [] (lit "javascript") None [] idle_text [] false true.

Definition setTemplates (v : list Templates.CodeTemplate) (st : State) : State :=
  mkState v (selectedLanguage st) (currentTemplate st) (code st) (output st)
    (input st) (isRunning st) (isLoading st).

Definition setSelectedLanguage (v : jsstring) (st : State) : State :=
  mkState (templates st) v (currentTemplate st) (code st) (output st)
    (input st) (isRunning st) (isLoading st).

Definition setCurrentTemplate (v : option Templates.CodeTemplate) (st : State)
  : State :=
  mkState (templates st) (selectedLanguage st) v (code st) (output st)
    (input st) (isRunning st) (isLoading st).

Definition setCode (v : jsstring) (st : State) : State :=
  mkState (templates st) (selectedLanguage st) (currentTemplate st) v
    (output st) (input st) (isRunning st) (isLoading st).

Definition setOutput (v : jsstring) (st : State) : State :=
  mkState (templates st) (selectedLanguage st) (currentTemplate st) (code st)
    v (input st) (isRunning st) (isLoading st).

Definition setInput (v : jsstring) (st : State) : State :=
  mkState (templates st) (selectedLanguage st) (currentTemplate st) (code st)
    (output st) v (isRunning st) (isLoading st).

Definition setIsRunning (v : bool) (st : State) : State :=
  mkState (templates st) (selectedLanguage st) (currentTemplate st) (code st)
    (output st) (input st) v (isLoading st).

Definition setIsLoading (v : bool) (st : State) : State :=
  mkState (templates st) (selectedLanguage st) (currentTemplate st) (code st)
    (output st) (input st) (isRunning st) v.

(** [a === b] on strings. *)
Fixpoint string_eq (a b : jsstring) : bool :=
  match a, b with
  | [], [] => true
  | x :: a', y :: b' => (x =? y) && string_eq a' b'
  | _, _ => false
  end.

Definition setup_instructions : jsstring :=
  nl ++ nl ++ lit "Setup Instructions:"
  ++ nl ++ lit "1. Go to https://rapidapi.com/judge0-official/api/judge0-ce"
  ++ nl ++ lit "2. Subscribe to the free plan"
  ++ nl ++ lit "3. Get your API key"
  ++ nl ++ lit "4. Add NEXT_PUBLIC_JUDGE0_API_KEY=your_key_here to .env.local".

Section Component.

Variable response_json : jsstring -> result (option Templates.CodeTemplate).
Variable JSON_parse_submission : jsstring -> result Judge0.SubmissionReply.
Variable JSON_parse_result : jsstring -> result Judge0.ExecutionResult.
Variable env : Judge0.Env.

(** [const judge0Service = new Judge0Service()] *)
Definition judge0Service : Judge0.Judge0Service := Judge0.constructor env.

(** [loadTemplates], run by the effect hook when the component mounts. *)
Definition loadTemplates (st : State) (w : world) : State * world :=
  let (st', w') :=
    match Templates.loadAllTemplates response_json w with
    | (Ok loadedTemplates, w') =>
      let st := setTemplates loadedTemplates st in
      (match loadedTemplates with
       | defaultTemplate :: _ =>
         setInput (Templates.exampleInput defaultTemplate)
           (setCode (Templates.defaultCode defaultTemplate)
              (setCurrentTemplate (Some defaultTemplate) st))
       | [] => st
       end, w')
    | (Throw _, w') =>
      (setOutput (lit "Error: Failed to load code templates") st, w')
    end in
  (setIsLoading false st', w').

Definition handleLanguageChange (language : jsstring) (st : State) : State :=
  let st := setSelectedLanguage language st in
  match find (fun t => string_eq (Templates.value t) language) (templates st) with
  | Some template =>
    setOutput idle_text
      (setInput (Templates.exampleInput template)
         (setCode (Templates.defaultCode template)
            (setCurrentTemplate (Some template) st)))
  | None => st
  end.

Definition runCode (st : State) (w : world) : State * world :=
  match currentTemplate st with
  | None => (setOutput (lit "Error: No template selected") st, w)
  | Some template =>
    let st1 :=
      setOutput (lit "Compiling and running code...") (setIsRunning true st) in
    let (r, w') :=
      Judge0.executeCode JSON_parse_submission JSON_parse_result judge0Service
        (Templates.judge0Id template) (code st) (input st) w in
    let st2 :=
      match r with
      | Ok result => setOutput result st1
      | Throw error =>
        let errorMessage := lit "Error: " ++ message error in
        let errorMessage :=
          if includes (message error) (lit "API key not configured")
          then errorMessage ++ setup_instructions
          else errorMessage in
        setOutput errorMessage st1
      end in
    (setIsRunning false st2, w')
  end.

End Component.

(** [onChange={(value) => setCode(value || "")}] of the editor. *)
Definition onEditorChange (value : option jsstring) (st : State) : State :=
  setCode (match value with
           | Some v => if truthy_string v then v else []
           | None => []
           end) st.

(** [onClick={() => setOutput("")}] of the Clear button. *)
Definition onClear (st : State) : State := setOutput [] st.

(** [onChange={(e) => setInput(e.target.value)}] of the input area. *)
Definition onInputChange (v : jsstring) (st : State) : State := setInput v st.

End Editor.

(* ------------------------------------------------------------------ *)
(** ** Vocabulary of the statements *)

Import JS Codec Http.

Arguments lit : simpl never.
Arguments Number_toString : simpl never.

Module Spec.
Import Judge0.

(** The world after one more request, and after one more poll cycle
    (the delay, then the status request). *)
Definition after_poll (this : Judge0Service) (token : jsstring) (w : world)
  : world :=
  record (Fetch (result_request this token)) (record (Sleep 1000) w).

(** The next poll of [token] in [w] resolves to the result [r]. *)
Definition poll_reports (JSON_parse_result : jsstring -> result ExecutionResult)
    (this : Judge0Service) (token : jsstring) (w : world)
    (r : ExecutionResult) : Prop :=
  exists resp,
    remote w (requests_sent w) (result_request this token) = Resolved resp
    /\ ok resp = true
    /\ JSON_parse_result (text resp) = Ok r.

(** The next [n] polls of [token] all report a status the loop takes as
    still running. *)
Definition polls_pending (JSON_parse_result : jsstring -> result ExecutionResult)
    (this : Judge0Service) (token : jsstring) (w : world) (n : nat) : Prop :=
  forall k, (k < n)%nat ->
    exists resp r,
      remote w (requests_sent w + k)%nat (result_request this token)
        = Resolved resp
      /\ ok resp = true
      /\ JSON_parse_result (text resp) = Ok r
      /\ (id (status r) <= 2)%Z.

(** The events of [n] poll cycles. *)
Definition poll_events (this : Judge0Service) (token : jsstring) (n : nat)
  : list event :=
  concat (repeat [Sleep 1000; Fetch (result_request this token)] n).

(** The end of the loop as the specification words it: a poll reporting
    any status other than 1 and 2 ends the loop at once with that
    result. *)
Definition every_other_status_ends_the_loop : Prop :=
  forall JSON_parse_result this token n w r,
    truthy_string (apiKey this) = true ->
    poll_reports JSON_parse_result this token w r ->
    id (status r) <> 1%Z -> id (status r) <> 2%Z ->
    poll JSON_parse_result this (S n) token w
    = (formatOutput r, after_poll this token w).

(** The three payload fields of a result, and the fields the policy table
    of the specification lists for each of the codes 3 to 14. *)
Inductive payload := Stdout | Stderr | CompileOutput.

Definition field (f : payload) (r : ExecutionResult) : option jsstring :=
  match f with
  | Stdout => stdout r
  | Stderr => stderr r
  | CompileOutput => compile_output r
  end.

Definition policy (code : Z) : list payload :=
  if (code =? 3)%Z || (code =? 4)%Z then [Stdout]
  else if (code =? 6)%Z then [CompileOutput]
  else if (code =? 7)%Z || (code =? 11)%Z || (code =? 12)%Z then [Stderr]
  else [].


(** A payload is transport-encoded when it is base64 that [atob] accepts. *)
Definition transport_encoded (o : option jsstring) : Prop :=
  forall s, present o = Some s -> is_ok (atob s) = true.

Definition payloads_encoded (r : ExecutionResult) : Prop :=
  forall f, transport_encoded (field f r).

(** The trailing block, given the two texts shown for time and memory. *)
Definition info_block (r : ExecutionResult) (time_text memory_text : jsstring)
  : jsstring :=
  nl ++ nl ++ lit "--- Execution Info ---"
  ++ nl ++ lit "Status: " ++ description (status r) ++ lit " ("
  ++ Number_toString (id (status r)) ++ lit ")"
  ++ nl ++ lit "Time: " ++ time_text ++ lit "s"
  ++ nl ++ lit "Memory: " ++ memory_text ++ lit " KB".

Definition placeholder : jsstring := lit "N/A".

(** The placeholders as the specification words them: the placeholder
    stands for the time exactly when the time is absent, and for the memory
    exactly when the memory is absent. *)
Definition placeholders_exactly_when_absent : Prop :=
  forall r body time_text memory_text,
    formatOutput r = Ok (body ++ info_block r time_text memory_text) ->
    (time_text = placeholder <-> time r = None)
    /\ (memory_text = placeholder <-> memory r = None).

(** What the code shows: the placeholder also stands for an empty time
    and for a memory of zero. *)
Definition shown_time (r : ExecutionResult) : jsstring :=
  match time r with
  | Some (c :: t) => c :: t
  | Some [] | None => placeholder
  end.

Definition shown_memory (r : ExecutionResult) : jsstring :=
  match memory r with
  | Some 0%Z | None => placeholder
  | Some m => Number_toString m
  end.

(** The request [submitCode] sends for a submission, once the source
    and the input are encoded: it is the next request of [w], and the
    remote side resolves it to [resp]. *)
Definition submission_answered (this : Judge0Service) (languageId : Z)
    (sourceCode stdin : jsstring) (w : world)
    (rq : request) (resp : response) : Prop :=
  exists source64 stdin64,
    encodeBase64 sourceCode = Ok source64
    /\ (if truthy_string stdin then encodeBase64 stdin else Ok []) = Ok stdin64
    /\ rq = submission_request this languageId source64 stdin64
    /\ remote w (requests_sent w) rq = Resolved resp.

(** The text [executeCode] gives for a failure, when it has one. *)
Definition guidance (e : exn) : option jsstring :=
  if includes (message e) (lit "401") then Some invalid_key_text
  else if includes (message e) (lit "403") then Some forbidden_text
  else if includes (message e) (lit "429") then Some rate_limit_text
  else if includes (message e) (lit "API key not configured")
  then Some not_configured_text
  else None.

(** The UTF-8 octets of a string, code point by code point. *)
Fixpoint utf8_string (s : jsstring) : list N :=
  match s with
  | [] => []
  | c :: t =>
    if is_lead c then
      match t with
      | d :: t' => utf8 (pair_code_point c d) ++ utf8_string t'
      | [] => utf8 c
      end
    else utf8 c ++ utf8_string t
  end.

(** The codec gives [s] back: [encodeBase64] returns a text, and
    [decodeBase64] returns [s] for it. *)
Definition round_trips (s : jsstring) : Prop :=
  exists encoded,
    encodeBase64 s = Ok encoded /\ decodeBase64 encoded = Ok s.

End Spec.

(** The vocabulary of the statements on the template loader. *)
Module TemplateSpec.
Import Templates.

(** The descriptor a reply carries: a resolved, [ok] response whose body
    is the JSON of a descriptor; nothing otherwise. *)
Definition descriptor_of
    (response_json : jsstring -> result (option CodeTemplate)) (rp : reply)
  : option CodeTemplate :=
  match rp with
  | Rejected _ => None
  | Resolved r =>
    if ok r then
      match response_json (text r) with
      | Ok data => data
      | Throw _ => None
      end
    else None
  end.

(** The descriptors of the languages that load, in the order of the
    languages, when the first of them is the [n]-th request. *)
Fixpoint loaded (response_json : jsstring -> result (option CodeTemplate))
    (remote : nat -> request -> reply) (n : nat) (langs : list jsstring)
  : list CodeTemplate :=
  match langs with
  | [] => []
  | lang :: rest =>
    match descriptor_of response_json (remote n (template_request lang)) with
    | Some t => t :: loaded response_json remote (S n) rest
    | None => loaded response_json remote (S n) rest
    end
  end.

Definition requests_for (langs : list jsstring) : list event :=
  map (fun lang => Fetch (template_request lang)) langs.

End TemplateSpec.

(** Sample services, parsers and worlds for the instances below. *)
Module Sample.
Import Judge0.

Definition service : Judge0Service :=
  mkJudge0Service (lit "key") (lit "judge0-ce.p.rapidapi.com")
    (lit "https://judge0-ce.p.rapidapi.com").

Definition unconfigured : Env :=
  mkEnv None (Some (lit "judge0-ce.p.rapidapi.com"))
    (Some (lit "https://judge0-ce.p.rapidapi.com")).

Definition syntax_error : exn := mkExn SyntaxError (lit "Unexpected token").

(** A parser that reads every JSON object as an answer carrying the token
    [tok], and rejects the rest. *)
Definition parse_token (text : jsstring) : result SubmissionReply :=
  if starts_with text (lit "{") then
    Ok (mkSubmissionReply (Some (lit "tok")) None None)
  else Throw syntax_error.

Definition processing : ExecutionResult :=
  mkExecutionResult None None None (mkStatus 2 (lit "Processing")) None None.

Definition time_limit : ExecutionResult :=
  mkExecutionResult None None None (mkStatus 5 (lit "Time Limit Exceeded"))
    (Some (lit "5.0")) (Some 1024%Z).

Definition unknown_0 : ExecutionResult :=
  mkExecutionResult None None None (mkStatus 0 (lit "Unknown")) None None.

(** A remote side answering 201 with a token to the submission and 200 to
    every status request. *)
Definition accepting : world :=
  mkWorld (fun n _ => Resolved (mkResponse (if Nat.eqb n 0 then 201 else 200)
                                  (lit "{}")))
          [].

(** A remote side answering every request with the given status and
    body. *)
Definition answering (code : Z) (text : jsstring) : world :=
  mkWorld (fun _ _ => Resolved (mkResponse code text)) [].

(** A result whose memory is present and zero. *)
Definition zero_memory : ExecutionResult :=
  mkExecutionResult None None None (mkStatus 5 (lit "Time Limit Exceeded"))
    (Some (lit "5.0")) (Some 0%Z).

(** A compilation error that also carries standard output. *)
Definition compile_error : ExecutionResult :=
  mkExecutionResult (Some (lit "aGkK")) None (Some (lit "ZXJyb3I6IHN5bnRheA=="))
    (mkStatus 6 (lit "Compilation Error")) None None.

(** A descriptor parser that names the descriptor after the body. *)
Definition parse_template (text : jsstring)
  : result (option Templates.CodeTemplate) :=
  Ok (Some (Templates.mkCodeTemplate text text 0 [] [] [] [])).

(** A resource store that has every descriptor but the second requested,
    and answers with the address as body. *)
Definition one_missing : world :=
  mkWorld (fun n rq => Resolved (mkResponse (if Nat.eqb n 1 then 404 else 200)
                                   (url rq)))
          [].

(** A remote side that cannot be reached. *)
Definition unreachable : world :=
  mkWorld (fun _ _ => Rejected (mkExn TypeError (lit "Failed to fetch"))) [].

End Sample.

(** Further vocabulary: the payloads a status code makes [formatOutput]
    read, the titles of the sections of an unrecognized status, and the
    link between the current template and the list of templates. *)
Module Behaviour.
Import Judge0 Spec.

Definition supported (code : Z) : bool := (3 <=? code)%Z && (code <=? 14)%Z.

Definition consulted (code : Z) : list payload :=
  if supported code then policy code else [Stdout; Stderr; CompileOutput].

Definition section_title (f : payload) : jsstring :=
  match f with
  | Stdout => nl ++ lit "Output:" ++ nl
  | Stderr => nl ++ lit "Errors:" ++ nl
  | CompileOutput => nl ++ lit "Compilation:" ++ nl
  end.

Definition unknown_header (r : ExecutionResult) : jsstring :=
  lit "Unknown Status (" ++ Number_toString (id (status r)) ++ lit "): "
  ++ description (status r) ++ nl.

(** Every unit is an alphabet character of base64 or the padding sign. *)
Definition base64_text (s : jsstring) : bool :=
  forallb (fun c => match b64_value c with
                    | Some _ => true
                    | None => c =? equals_sign
                    end) s.

(** The world after [k] complete poll cycles. *)
Definition after_polls (this : Judge0Service) (token : jsstring) (k : nat)
    (w : world) : world :=
  mkWorld (remote w) (trace w ++ poll_events this token k).

(** The next status request of [token] in [w] fails with the error [e]:
    the request is rejected, or answered with a status that is not [ok],
    or answered with a body that is not JSON. *)
Definition poll_fails (JSON_parse_result : jsstring -> result ExecutionResult)
    (this : Judge0Service) (token : jsstring) (w : world) (e : exn) : Prop :=
  match remote w (requests_sent w) (result_request this token) with
  | Rejected e' => e = e'
  | Resolved resp =>
    if ok resp then JSON_parse_result (text resp) = Throw e
    else e = mkExn Error (http_error resp ++ lit " - " ++ text resp)
  end.

(** The current template, when there is one, is in the list shown. *)
Definition current_is_listed (st : Editor.State) : Prop :=
  match Editor.currentTemplate st with
  | Some t => In t (Editor.templates st)
  | None => True
  end.

(** The current template is listed, and it is missing exactly when the
    list is empty. *)
Definition consistent (st : Editor.State) : Prop :=
  current_is_listed st
  /\ (Editor.currentTemplate st = None <-> Editor.templates st = []).

End Behaviour.

(** Further samples. *)
Module Scenario.
Import Judge0.

Definition configured_env : Env :=
  mkEnv (Some (lit "key")) (Some (lit "judge0-ce.p.rapidapi.com"))
    (Some (lit "https://judge0-ce.p.rapidapi.com")).

(** Status 3 with the base64 of "hi" and a line feed as output. *)
Definition accepted_hi : ExecutionResult :=
  mkExecutionResult (Some (lit "aGkK")) None None
    (mkStatus 3 (lit "Accepted")) (Some (lit "0.01")) (Some 3200%Z).

(** An unrecognized status carrying output and compiler messages. *)
Definition unknown_15 : ExecutionResult :=
  mkExecutionResult (Some (lit "aGkK")) None (Some (lit "ZXJyb3I6IHN5bnRheA=="))
    (mkStatus 15 (lit "Mystery")) None None.

(** A result parser reporting "Processing" for a body starting with [p] and
    the accepted result otherwise. *)
Definition parse_by_first_letter (text : jsstring) : result ExecutionResult :=
  if starts_with text (lit "p") then Ok Sample.processing else Ok accepted_hi.

(** A remote side that accepts the submission, reports "Processing" twice
    and then the accepted result. *)
Definition done_at_third_poll : world :=
  mkWorld (fun n _ =>
             Resolved (if Nat.eqb n 0 then mkResponse 201 (lit "{}")
                       else if Nat.leb n 2 then mkResponse 200 (lit "p")
                       else mkResponse 200 (lit "a")))
          [].

(** A remote side that accepts the submission, reports "Processing" once
    and is out of reach from then on. *)
Definition lost_after_one_poll : world :=
  mkWorld (fun n _ =>
             if Nat.eqb n 0 then Resolved (mkResponse 201 (lit "{}"))
             else if Nat.eqb n 1 then Resolved (mkResponse 200 (lit "p"))
             else Rejected (mkExn TypeError (lit "Failed to fetch")))
          [].

Definition python_template : Templates.CodeTemplate :=
  Templates.mkCodeTemplate (lit "python") (lit "Python") 71 (lit "Python 3")
    (lit "print(1)") (lit "5") (lit "1").

Definition go_template : Templates.CodeTemplate :=
  Templates.mkCodeTemplate (lit "go") (lit "Go") 60 (lit "Go 1.13")
    (lit "package main") [] [].

(** The editor showing the two templates, Python being current. *)
Definition editing_python : Editor.State :=
  Editor.mkState [python_template; go_template] (lit "python")
    (Some python_template) (lit "print(1)") Editor.idle_text (lit "5")
    false false.

End Scenario.

(* ------------------------------------------------------------------ *)
(** ** Strings *)

Lemma starts_with_app (p s : jsstring) : starts_with (p ++ s) p = true.
Proof.
  induction p as [|x p IH]; simpl; [reflexivity|].
  now rewrite N.eqb_refl, IH.
Qed.

Lemma starts_with_refl (p : jsstring) : starts_with p p = true.
Proof.
  induction p as [|x p IH]; simpl; [reflexivity|].
  now rewrite N.eqb_refl, IH.
Qed.

Lemma includes_here (s p : jsstring) :
  starts_with s p = true -> includes s p = true.
Proof. intros H; destruct s; simpl; rewrite H; reflexivity. Qed.

Lemma includes_app_r (a s p : jsstring) :
  includes s p = true -> includes (a ++ s) p = true.
Proof.
  intros H; induction a as [|x a IH]; simpl; [exact H|].
  rewrite IH. apply orb_true_r.
Qed.

Lemma starts_with_app_l (s b p : jsstring) :
  starts_with s p = true -> starts_with (s ++ b) p = true.
Proof.
  revert s; induction p as [|x p IH]; intros [|y s]; simpl; try easy.
  intros H. apply andb_true_iff in H as [-> H]. simpl. now apply IH.
Qed.

Lemma includes_app_l (s b p : jsstring) :
  includes s p = true -> includes (s ++ b) p = true.
Proof.
  induction s as [|x s IH]; simpl.
  - rewrite orb_false_r. destruct p; [intros _|discriminate].
    apply includes_here. now destruct b.
  - intros H. apply orb_true_iff in H as [H|H].
    + apply (starts_with_app_l (x :: s) b) in H. simpl in H.
      rewrite H. reflexivity.
    + rewrite (IH H). apply orb_true_r.
Qed.

Lemma includes_app (a p b : jsstring) : includes (a ++ p ++ b) p = true.
Proof. apply includes_app_r, includes_here, starts_with_app. Qed.

Lemma includes_suffix (a p : jsstring) : includes (a ++ p) p = true.
Proof.
  rewrite <- (app_nil_r p) at 1. apply includes_app.
Qed.

(* ------------------------------------------------------------------ *)
(** ** The world *)

Lemma requests_sent_fetch rq w :
  requests_sent (record (Fetch rq) w) = S (requests_sent w).
Proof.
  unfold requests_sent, record; simpl.
  rewrite filter_app, length_app; simpl. lia.
Qed.

Lemma requests_sent_sleep ms w :
  requests_sent (record (Sleep ms) w) = requests_sent w.
Proof.
  unfold requests_sent, record; simpl.
  rewrite filter_app, length_app; simpl. lia.
Qed.

Lemma fetch_resolved rq w r :
  remote w (requests_sent w) rq = Resolved r ->
  fetch rq w = (Ok r, record (Fetch rq) w).
Proof. unfold fetch; intros ->; reflexivity. Qed.

Lemma fetch_rejected rq w e :
  remote w (requests_sent w) rq = Rejected e ->
  fetch rq w = (Throw e, record (Fetch rq) w).
Proof. unfold fetch; intros ->; reflexivity. Qed.

(* ------------------------------------------------------------------ *)
(** ** The credential guard *)

Import Judge0 Spec.

Lemma constructor_no_key env :
  present (NEXT_PUBLIC_JUDGE0_API_KEY env) = None ->
  truthy_string (apiKey (constructor env)) = false.
Proof.
  unfold constructor, present, or_else; simpl.
  destruct (NEXT_PUBLIC_JUDGE0_API_KEY env) as [s|]; [|reflexivity].
  destruct (truthy_string s); [discriminate | reflexivity].
Qed.

Lemma translate_not_configured : translate not_configured = ret not_configured_text.
Proof. reflexivity. Qed.

(** C6. Without a configured credential ([NEXT_PUBLIC_JUDGE0_API_KEY]
    unset or empty) [submitCode] throws the configuration error and leaves
    the world as it was: no request is sent. [executeCode] then returns the
    configuration guidance in that same world: the submission is not tried
    again and nothing is polled. *)
Theorem submitCode_requires_credential :
  forall JSON_parse_submission JSON_parse_result env languageId sourceCode stdin w,
    present (NEXT_PUBLIC_JUDGE0_API_KEY env) = None ->
    submitCode JSON_parse_submission (constructor env) languageId sourceCode stdin w
      = (Throw not_configured, w)
    /\ executeCode JSON_parse_submission JSON_parse_result (constructor env)
         languageId sourceCode stdin w
       = (Ok not_configured_text, w).
Proof.
  intros ps pr env languageId sourceCode stdin w Hkey.
  apply constructor_no_key in Hkey.
  assert (Hs : submitCode ps (constructor env) languageId sourceCode stdin w
               = (Throw not_configured, w)).
  { unfold submitCode. rewrite Hkey. reflexivity. }
  split; [exact Hs|].
  unfold executeCode, Http.try_catch, Http.bind. rewrite Hs.
  rewrite translate_not_configured. reflexivity.
Qed.

Lemma submitCode_requires_credential_witness :
  submitCode Sample.parse_token (constructor Sample.unconfigured)
    71 (lit "print(1)") [] Sample.accepting
  = (Throw not_configured, Sample.accepting).
Proof.
  apply (submitCode_requires_credential Sample.parse_token
           (fun _ => Ok Sample.processing) Sample.unconfigured).
  reflexivity.
Defined.

(** C10. Without a configured credential [getResult] throws the same
    configuration error as [submitCode] and sends no request. *)
Theorem getResult_requires_credential :
  forall JSON_parse_result env token w,
    present (NEXT_PUBLIC_JUDGE0_API_KEY env) = None ->
    getResult JSON_parse_result (constructor env) token w
      = (Throw not_configured, w).
Proof.
  intros pr env token w Hkey.
  apply constructor_no_key in Hkey.
  unfold getResult. rewrite Hkey. reflexivity.
Qed.

Lemma getResult_requires_credential_witness :
  getResult (fun _ => Ok Sample.processing)
    (constructor (mkEnv (Some []) None None)) (lit "tok") Sample.accepting
  = (Throw not_configured, Sample.accepting).
Proof.
  apply (getResult_requires_credential _ (mkEnv (Some []) None None)).
  reflexivity.
Defined.

(* ------------------------------------------------------------------ *)
(** ** The polling loop *)

Section Polling.

Variable JSON_parse_result : jsstring -> result ExecutionResult.
Variable this : Judge0Service.
Hypothesis configured : truthy_string (apiKey this) = true.

Lemma getResult_reports token w r :
  poll_reports JSON_parse_result this token w r ->
  getResult JSON_parse_result this token w
    = (Ok r, record (Fetch (result_request this token)) w).
Proof.
  intros (resp & Hremote & Hok & Hparse).
  unfold getResult. rewrite configured. simpl.
  unfold Http.try_catch, Http.bind.
  rewrite (fetch_resolved _ _ _ Hremote), Hok. simpl.
  unfold lift. rewrite Hparse. reflexivity.
Qed.

Lemma poll_reports_after_sleep token w r ms :
  poll_reports JSON_parse_result this token w r ->
  poll_reports JSON_parse_result this token (record (Sleep ms) w) r.
Proof.
  intros (resp & Hremote & Hok & Hparse). exists resp.
  rewrite requests_sent_sleep. auto.
Qed.

(** One turn of the loop, when the poll resolves to a result. *)
Lemma poll_turn n token w r :
  poll_reports JSON_parse_result this token w r ->
  poll JSON_parse_result this (S n) token w
  = if (id (status r) <=? 2)%Z
    then poll JSON_parse_result this n token (after_poll this token w)
    else (formatOutput r, after_poll this token w).
Proof.
  intros H. apply (poll_reports_after_sleep _ _ _ 1000) in H.
  apply getResult_reports in H.
  cbn [poll]. unfold Http.bind at 1. unfold sleep at 1.
  unfold Http.bind at 1. rewrite H. unfold after_poll.
  destruct (id (status r) <=? 2)%Z; reflexivity.
Qed.

Lemma polls_pending_first token w n :
  polls_pending JSON_parse_result this token w (S n) ->
  exists r, poll_reports JSON_parse_result this token w r
            /\ (id (status r) <= 2)%Z.
Proof.
  intros H. destruct (H 0%nat) as (resp & r & H1 & H2 & H3 & H4); [lia|].
  rewrite Nat.add_0_r in H1. exists r. split; [exists resp|]; auto.
Qed.

Lemma polls_pending_rest token w n :
  polls_pending JSON_parse_result this token w (S n) ->
  polls_pending JSON_parse_result this token (after_poll this token w) n.
Proof.
  intros H k Hk. destruct (H (S k)) as (resp & r & H1 & H2); [lia|].
  exists resp, r. unfold after_poll.
  rewrite requests_sent_fetch, requests_sent_sleep. simpl.
  rewrite Nat.add_succ_r in H1. auto.
Qed.

Lemma trace_after_poll token w :
  trace (after_poll this token w)
  = trace w ++ [Sleep 1000; Fetch (result_request this token)].
Proof. unfold after_poll, record; simpl. now rewrite <- app_assoc. Qed.

(** While every poll reports a pending status the loop keeps polling until
    its budget is used up, and then returns the time-out text. *)
Lemma poll_pending n : forall token w,
  polls_pending JSON_parse_result this token w n ->
  poll JSON_parse_result this n token w
  = (Ok timed_out,
     mkWorld (remote w) (trace w ++ poll_events this token n)).
Proof.
  induction n as [|n IH]; intros token w H.
  - cbn. unfold ret, poll_events. simpl. rewrite app_nil_r.
    destruct w; reflexivity.
  - destruct (polls_pending_first _ _ _ H) as (r & Hr & Hid).
    rewrite (poll_turn _ _ _ _ Hr).
    apply Z.leb_le in Hid. rewrite Hid.
    rewrite (IH _ _ (polls_pending_rest _ _ _ H)).
    rewrite trace_after_poll. unfold poll_events. simpl.
    rewrite <- app_assoc. reflexivity.
Qed.

End Polling.

(** [getResult] sends at most one request. *)
Lemma getResult_one_request pr this token w :
  (requests_sent (snd (getResult pr this token w)) <= S (requests_sent w))%nat.
Proof.
  unfold getResult. destruct (truthy_string (apiKey this)); simpl; [|lia].
  unfold Http.try_catch, Http.bind, fetch.
  destruct (remote w (requests_sent w) (result_request this token)) as [e|r];
    simpl; [rewrite requests_sent_fetch; lia|].
  destruct (ok r); simpl.
  - unfold lift. destruct (pr (text r)); simpl; rewrite requests_sent_fetch; lia.
  - rewrite requests_sent_fetch. lia.
Qed.

(** Whatever the remote side answers, [n] turns of the loop send at most
    [n] requests. *)
Lemma poll_bounded pr this n : forall token w,
  (requests_sent (snd (poll pr this n token w)) <= requests_sent w + n)%nat.
Proof.
  induction n as [|n IH]; intros token w; [simpl; lia|].
  cbn [poll]. unfold Http.bind at 1. unfold sleep at 1.
  unfold Http.bind at 1.
  pose proof (getResult_one_request pr this token (record (Sleep 1000) w)) as H.
  rewrite requests_sent_sleep in H.
  destruct (getResult pr this token (record (Sleep 1000) w)) as [[r|e] w'];
    simpl in H; [|simpl; lia].
  destruct (id (status r) <=? 2)%Z.
  - specialize (IH token w'). lia.
  - unfold lift. simpl. lia.
Qed.

(* ------------------------------------------------------------------ *)
(** ** The shape of a formatted result *)

Lemma formatOutput_shape r out :
  formatOutput r = Ok out -> exists body, out = body ++ summary r.
Proof.
  unfold formatOutput. destruct (narrative r) as [body|e]; simpl; [|discriminate].
  intros [= <-]. now exists body.
Qed.

Lemma last_unit_summary r body :
  exists front, body ++ summary r = front ++ [66].
Proof.
  unfold summary. change (lit " KB") with ([32; 75] ++ [66]).
  rewrite !app_assoc. eexists. reflexivity.
Qed.

(** The time-out text is not the text of any formatted result. *)
Lemma timed_out_not_formatted r : formatOutput r <> Ok timed_out.
Proof.
  intros H. destruct (formatOutput_shape _ _ H) as (body & Hb).
  destruct (last_unit_summary r body) as (front & Hf). rewrite Hf in Hb.
  apply (f_equal (@rev N)) in Hb. rewrite rev_app_distr in Hb.
  vm_compute in Hb. discriminate.
Qed.

(** C2, amended. A poll that reports a status of at most 2 makes the loop
    go on with the next attempt; a poll that reports any status above 2
    ends the loop: the formatted result is returned and the world is the
    one just after that poll, so nothing more is requested. *)
Theorem poll_ends_above_2 :
  forall JSON_parse_result this token n w r,
    truthy_string (apiKey this) = true ->
    poll_reports JSON_parse_result this token w r ->
    ((id (status r) <= 2)%Z ->
       poll JSON_parse_result this (S n) token w
       = poll JSON_parse_result this n token (after_poll this token w))
    /\ ((2 < id (status r))%Z ->
       poll JSON_parse_result this (S n) token w
       = (formatOutput r, after_poll this token w)).
Proof.
  intros pr this token n w r Hkey Hr.
  rewrite (poll_turn pr this Hkey n token w r Hr).
  split; intros Hid.
  - apply Z.leb_le in Hid. now rewrite Hid.
  - apply Z.leb_gt in Hid. now rewrite Hid.
Qed.

Lemma poll_ends_above_2_witness :
  poll (fun _ => Ok Sample.time_limit) Sample.service 30 (lit "tok")
    (Sample.answering 200 (lit "{}"))
  = (formatOutput Sample.time_limit,
     after_poll Sample.service (lit "tok") (Sample.answering 200 (lit "{}"))).
Proof.
  apply poll_ends_above_2.
  - reflexivity.
  - exists (mkResponse 200 (lit "{}")). repeat split.
  - simpl. lia.
Defined.

(** C2, as stated, fails: a poll that reports status 0 does not end the
    loop. *)
Lemma status_0_keeps_polling : ~ every_other_status_ends_the_loop.
Proof.
  intros H.
  specialize (H (fun _ => Ok Sample.unknown_0) Sample.service (lit "tok")
                0%nat (Sample.answering 200 (lit "{}")) Sample.unknown_0).
  assert (E : forall A (x y : result A * world), x = y -> fst x = fst y)
    by (intros; subst; reflexivity).
  apply E in H.
  - vm_compute in H. discriminate.
  - reflexivity.
  - exists (mkResponse 200 (lit "{}")). repeat split.
  - discriminate.
  - discriminate.
Qed.

(** C3. When the submission returned [token] and each of the next 30 polls
    reports a pending status, [executeCode] sends exactly 30 status
    requests, each after a delay, and then returns the time-out text: a
    normal completion, not a thrown error, not the text of any formatted
    result, and not one of the guidance texts given for a failure. *)
Theorem executeCode_times_out :
  forall JSON_parse_submission JSON_parse_result this
         languageId sourceCode stdin w token w1,
    truthy_string (apiKey this) = true ->
    submitCode JSON_parse_submission this languageId sourceCode stdin w
      = (Ok token, w1) ->
    polls_pending JSON_parse_result this token w1 maxAttempts ->
    executeCode JSON_parse_submission JSON_parse_result this
      languageId sourceCode stdin w
    = (Ok timed_out,
       mkWorld (remote w1) (trace w1 ++ poll_events this token 30))
    /\ List.length (filter is_fetch (poll_events this token 30)) = 30%nat
    /\ (forall r, formatOutput r <> Ok timed_out)
    /\ (forall e, guidance e <> Some timed_out).
Proof.
  intros ps pr this languageId sourceCode stdin w token w1 Hkey Hsub Hpend.
  split; [|split; [|split]].
  - unfold executeCode, Http.try_catch, Http.bind. rewrite Hsub.
    rewrite (poll_pending pr this Hkey maxAttempts token w1 Hpend).
    reflexivity.
  - reflexivity.
  - apply timed_out_not_formatted.
  - intros e. unfold guidance.
    repeat match goal with
           | |- context [includes ?m ?p] => destruct (includes m p)
           end; discriminate.
Qed.

Lemma executeCode_times_out_witness :
  fst (executeCode Sample.parse_token (fun _ => Ok Sample.processing)
         Sample.service 71 (lit "print(1)") [] Sample.accepting)
  = Ok timed_out.
Proof.
  rewrite (proj1 (executeCode_times_out Sample.parse_token
                    (fun _ => Ok Sample.processing) Sample.service
                    71 (lit "print(1)") [] Sample.accepting (lit "tok") _
                    eq_refl eq_refl
                    (fun k _ => ex_intro _ (mkResponse 200 (lit "{}"))
                       (ex_intro _ Sample.processing
                          (conj eq_refl (conj eq_refl (conj eq_refl
                             (Z.le_refl 2)))))))).
  reflexivity.
Defined.

(* ------------------------------------------------------------------ *)
(** ** Submission failures and their translation *)

Section Submission.

Variable JSON_parse_submission : jsstring -> result SubmissionReply.
Variable this : Judge0Service.
Hypothesis configured : truthy_string (apiKey this) = true.

(** [submitCode] up to the answer of the remote side. *)
Lemma submitCode_answered languageId sourceCode stdin w rq resp :
  submission_answered this languageId sourceCode stdin w rq resp ->
  submitCode JSON_parse_submission this languageId sourceCode stdin w
  = if ok resp then
      match JSON_parse_submission (text resp) with
      | Ok d =>
        match present (token d) with
        | Some t => (Ok t, record (Fetch rq) w)
        | None => (Throw no_token, record (Fetch rq) w)
        end
      | Throw e => (Throw e, record (Fetch rq) w)
      end
    else
      (Throw (mkExn Error
         match JSON_parse_submission (text resp) with
         | Ok d => append_detail (append_detail (http_error resp) (error d))
                     (reply_message d)
         | Throw _ => http_error resp ++ lit " - " ++ text resp
         end),
       record (Fetch rq) w).
Proof.
  intros (s64 & i64 & Hs & Hi & -> & Hremote).
  unfold submitCode. rewrite configured. simpl.
  unfold Http.try_catch, Http.bind, lift. rewrite Hs, Hi.
  rewrite (fetch_resolved _ _ _ Hremote).
  destruct (ok resp); simpl.
  - destruct (JSON_parse_submission (text resp)) as [d|e]; [|reflexivity].
    destruct (present (token d)); reflexivity.
  - destruct (JSON_parse_submission (text resp)) as [d|e]; reflexivity.
Qed.

Lemma append_detail_keeps_prefix s x p :
  starts_with s p = true -> starts_with (append_detail s x) p = true.
Proof.
  intros H. unfold append_detail. destruct (present x); [|exact H].
  now apply starts_with_app_l.
Qed.

Lemma append_detail_includes s x m :
  present x = Some m -> includes (append_detail s x) (lit " - " ++ m) = true.
Proof.
  intros H. unfold append_detail. rewrite H. apply includes_suffix.
Qed.

Lemma append_detail_keeps s x p :
  includes s p = true -> includes (append_detail s x) p = true.
Proof.
  intros H. unfold append_detail. destruct (present x); [|exact H].
  now apply includes_app_l.
Qed.

End Submission.

(** A network failure on submission has no recognized text: it is thrown
    again as it is. *)
Example network_failure_propagates :
  executeCode Sample.parse_token (fun _ => Ok Sample.processing)
    Sample.service 71 (lit "print(1)") [] Sample.unreachable
  = (Throw (mkExn TypeError (lit "Failed to fetch")),
     record (Fetch (submission_request Sample.service 71 (lit "cHJpbnQoMSk=") []))
       Sample.unreachable).
Proof. reflexivity. Qed.

(** An HTTP 401 on submission always comes back as the API-key text. *)
Lemma executeCode_unauthorized ps pr this languageId sourceCode stdin w rq resp :
  truthy_string (apiKey this) = true ->
  submission_answered this languageId sourceCode stdin w rq resp ->
  Http.status resp = 401%Z ->
  executeCode ps pr this languageId sourceCode stdin w
  = (Ok invalid_key_text, record (Fetch rq) w).
Proof.
  intros Hkey Hans H401.
  unfold executeCode, Http.try_catch, Http.bind.
  rewrite (submitCode_answered ps this Hkey _ _ _ _ _ _ Hans).
  assert (Hok : ok resp = false) by (unfold ok; rewrite H401; reflexivity).
  rewrite Hok. unfold translate. cbn [instanceof_Error exn_class message].
  replace (includes _ (lit "401")) with true; [reflexivity|].
  symmetry.
  assert (Hh : includes (http_error resp) (lit "401") = true).
  { unfold http_error. rewrite H401. apply includes_suffix. }
  destruct (ps (text resp)) as [d|e].
  - now do 2 apply append_detail_keeps.
  - now apply includes_app_l.
Qed.

(** C8. Once the submission request is answered: a response that is not
    [ok] makes [submitCode] throw an [Error] whose message starts with
    "HTTP error! status: " and the status, and carries the [error] and the
    [message] of the body when they are there, or the raw text when the
    body is not JSON; an [ok] response whose body has no token makes it
    throw the "No token received" error. A token is returned only for an
    [ok] response that has one. *)
Theorem submitCode_rejections :
  forall JSON_parse_submission this languageId sourceCode stdin w rq resp,
    truthy_string (apiKey this) = true ->
    submission_answered this languageId sourceCode stdin w rq resp ->
    let run :=
      submitCode JSON_parse_submission this languageId sourceCode stdin w in
    (ok resp = false ->
       exists msg,
         run = (Throw (mkExn Error msg), record (Fetch rq) w)
         /\ starts_with msg
              (lit "HTTP error! status: " ++ Number_toString (Http.status resp))
            = true
         /\ match JSON_parse_submission (text resp) with
            | Ok d =>
              (forall m, present (error d) = Some m ->
                         includes msg (lit " - " ++ m) = true)
              /\ (forall m, present (reply_message d) = Some m ->
                            includes msg (lit " - " ++ m) = true)
            | Throw _ =>
              msg = lit "HTTP error! status: "
                    ++ Number_toString (Http.status resp)
                    ++ lit " - " ++ text resp
            end)
    /\ (ok resp = true ->
        forall d, JSON_parse_submission (text resp) = Ok d ->
                  present (token d) = None ->
                  run = (Throw no_token, record (Fetch rq) w))
    /\ (forall t, fst run = Ok t ->
          ok resp = true
          /\ exists d, JSON_parse_submission (text resp) = Ok d
                       /\ present (token d) = Some t).
Proof.
  intros ps this languageId sourceCode stdin w rq resp Hkey Hans run.
  subst run. rewrite (submitCode_answered ps this Hkey _ _ _ _ _ _ Hans).
  split; [|split].
  - intros ->. eexists. split; [reflexivity|]. split.
    + destruct (ps (text resp)) as [d|e].
      * do 2 apply append_detail_keeps_prefix. apply starts_with_refl.
      * unfold http_error. apply starts_with_app.
    + destruct (ps (text resp)) as [d|e].
      * split; intros m Hm.
        -- apply append_detail_keeps. now apply append_detail_includes.
        -- now apply append_detail_includes.
      * unfold http_error. now rewrite <- app_assoc.
  - intros -> d -> ->. reflexivity.
  - intros t. destruct (ok resp); [|discriminate].
    destruct (ps (text resp)) as [d|e]; [|discriminate].
    destruct (present (token d)) as [t'|] eqn:Ht; [|discriminate].
    simpl. intros [= ->]. split; [reflexivity|]. now exists d.
Qed.

(** C7. Whatever [submitCode], the polling or the formatting throws,
    [executeCode] looks for "401", "403", "429" and "API key not
    configured" in the message, in that order: on the first match it
    returns the matching guidance text as a normal result; without a match
    it throws the same error again. *)
Theorem executeCode_translates_failures :
  forall JSON_parse_submission JSON_parse_result this
         languageId sourceCode stdin w e w',
    (token <~ submitCode JSON_parse_submission this languageId sourceCode stdin ;;
     poll JSON_parse_result this maxAttempts token) w = (Throw e, w') ->
    executeCode JSON_parse_submission JSON_parse_result this
      languageId sourceCode stdin w
    = (match guidance e with
       | Some advice => Ok advice
       | None => Throw e
       end, w').
Proof.
  intros ps pr this languageId sourceCode stdin w e w' H.
  unfold executeCode, Http.try_catch. rewrite H.
  unfold translate, guidance.
  replace (instanceof_Error e) with true
    by (unfold instanceof_Error; destruct (exn_class e); reflexivity).
  repeat match goal with
         | |- context [includes ?m ?p] => destruct (includes m p)
         end; reflexivity.
Qed.

(** An HTTP 401 on submission: the API-key guidance comes back. *)
Lemma executeCode_translates_failures_witness :
  executeCode Sample.parse_token (fun _ => Ok Sample.processing)
    Sample.service 71 (lit "print(1)") []
    (Sample.answering 401 (lit "Unauthorized"))
  = (Ok invalid_key_text,
     record (Fetch (submission_request Sample.service 71 (lit "cHJpbnQoMSk=") []))
       (Sample.answering 401 (lit "Unauthorized"))).
Proof.
  rewrite (executeCode_translates_failures Sample.parse_token
             (fun _ => Ok Sample.processing) Sample.service 71
             (lit "print(1)") [] (Sample.answering 401 (lit "Unauthorized"))
             (mkExn Error (lit "HTTP error! status: 401 - Unauthorized"))
             (record (Fetch (submission_request Sample.service 71
                               (lit "cHJpbnQoMSk=") []))
                (Sample.answering 401 (lit "Unauthorized")))
             eq_refl).
  reflexivity.
Defined.

Lemma submitCode_rejections_witness :
  exists msg,
    submitCode Sample.parse_token Sample.service 71 (lit "print(1)") []
      (Sample.answering 500 (lit "Internal Server Error"))
    = (Throw (mkExn Error msg),
       record (Fetch (submission_request Sample.service 71
                        (lit "cHJpbnQoMSk=") []))
         (Sample.answering 500 (lit "Internal Server Error")))
    /\ starts_with msg (lit "HTTP error! status: 500") = true.
Proof.
  destruct (proj1 (submitCode_rejections Sample.parse_token Sample.service 71
                     (lit "print(1)") []
                     (Sample.answering 500 (lit "Internal Server Error"))
                     (submission_request Sample.service 71
                        (lit "cHJpbnQoMSk=") [])
                     (mkResponse 500 (lit "Internal Server Error"))
                     eq_refl
                     (ex_intro _ (lit "cHJpbnQoMSk=")
                        (ex_intro _ []
                           (conj eq_refl (conj eq_refl
                              (conj eq_refl eq_refl))))))
                  eq_refl)
    as (msg & Hrun & Hstart & _).
  exists msg. split; [exact Hrun | exact Hstart].
Defined.

(* ------------------------------------------------------------------ *)
(** ** The template loader *)

Section TemplateLoader.
Import Templates TemplateSpec.

Variable response_json : jsstring -> result (option CodeTemplate).

Lemma loadTemplate_descriptor language w :
  loadTemplate response_json language w
  = (Ok (descriptor_of response_json
           (remote w (requests_sent w) (template_request language))),
     record (Fetch (template_request language)) w).
Proof.
  unfold loadTemplate, Http.try_catch, Http.bind, fetch, descriptor_of.
  destruct (remote w (requests_sent w) (template_request language)) as [e|r];
    [reflexivity|].
  destruct (ok r); simpl; [|reflexivity].
  unfold lift. destruct (response_json (text r)); reflexivity.
Qed.

Lemma load_each_loaded langs : forall templates w,
  load_each response_json langs templates w
  = (Ok (templates ++ loaded response_json (remote w) (requests_sent w) langs),
     mkWorld (remote w) (trace w ++ requests_for langs)).
Proof.
  induction langs as [|lang rest IH]; intros templates w.
  - simpl. rewrite !app_nil_r. destruct w; reflexivity.
  - cbn [load_each loaded requests_for map].
    unfold Http.bind at 1. rewrite loadTemplate_descriptor.
    rewrite IH, requests_sent_fetch. cbn [remote record trace].
    rewrite <- app_assoc. cbn [app].
    destruct (descriptor_of response_json _) as [t|].
    + rewrite <- app_assoc. reflexivity.
    + reflexivity.
Qed.

End TemplateLoader.

(** C9. [loadTemplate] always completes normally: it yields the
    descriptor of the reply, which is [null] when the request is rejected,
    when the response is not [ok] and when the body is not JSON.
    [loadAllTemplates] requests every one of the six languages in order,
    whatever the earlier ones gave, and returns exactly the descriptors of
    those that loaded. *)
Theorem templates_skip_failures :
  forall response_json,
    (forall language w,
       Templates.loadTemplate response_json language w
       = (Ok (TemplateSpec.descriptor_of response_json
                (remote w (requests_sent w)
                   (Templates.template_request language))),
          record (Fetch (Templates.template_request language)) w))
    /\ (forall e, TemplateSpec.descriptor_of response_json (Rejected e) = None)
    /\ (forall r, ok r = false ->
          TemplateSpec.descriptor_of response_json (Resolved r) = None)
    /\ (forall r e, response_json (text r) = Throw e ->
          TemplateSpec.descriptor_of response_json (Resolved r) = None)
    /\ (forall w,
          Templates.loadAllTemplates response_json w
          = (Ok (TemplateSpec.loaded response_json (remote w) (requests_sent w)
                   Templates.languages),
             mkWorld (remote w)
               (trace w ++ TemplateSpec.requests_for Templates.languages))).
Proof.
  intros rj. repeat split.
  - apply loadTemplate_descriptor.
  - intros r H. simpl. now rewrite H.
  - intros r e H. simpl. rewrite H. now destruct (ok r).
  - intros w. unfold Templates.loadAllTemplates.
    now rewrite load_each_loaded.
Qed.

Lemma templates_skip_failures_witness :
  fst (Templates.loadAllTemplates Sample.parse_template Sample.one_missing)
  = Ok (map (fun lang =>
               let u := lit "/templates/" ++ lang ++ lit ".json" in
               Templates.mkCodeTemplate u u 0 [] [] [] [])
          [lit "javascript"; lit "java"; lit "cpp"; lit "csharp"; lit "go"]).
Proof.
  destruct (templates_skip_failures Sample.parse_template)
    as (_ & _ & _ & _ & H).
  rewrite H. reflexivity.
Defined.

(* ------------------------------------------------------------------ *)
(** ** Formatting *)

Lemma decodeBase64_total s :
  is_ok (atob s) = true -> exists d, decodeBase64 s = Ok d.
Proof.
  unfold decodeBase64, JS.try_catch, JS.bind.
  destruct (atob s) as [b|e]; simpl; [intros _|discriminate].
  destruct (decodeURIComponent (escape b)); eauto.
Qed.

Lemma append_decoded_total output prefix o :
  transport_encoded o -> exists out, append_decoded output prefix o = Ok out.
Proof.
  intros H. unfold append_decoded.
  destruct (present o) as [s|] eqn:E; [|eauto].
  destruct (decodeBase64_total s (H s E)) as (d & ->). simpl. eauto.
Qed.

Lemma narrative_total r :
  payloads_encoded r -> exists body, narrative r = Ok body.
Proof.
  intros H. unfold narrative.
  pose proof (H Stdout) as Hout. pose proof (H Stderr) as Herr.
  pose proof (H CompileOutput) as Hcomp. simpl in Hout, Herr, Hcomp.
  repeat match goal with
         | |- context [if ?b then _ else _] => destruct b
         end;
    try solve [eauto | now apply append_decoded_total].
  - destruct (present (stdout r)) as [s|] eqn:E; [|eauto].
    destruct (decodeBase64_total s (Hout s E)) as (d & ->). simpl. eauto.
  - destruct (append_decoded_total
                (lit "Unknown Status (" ++ Number_toString (id (status r))
                   ++ lit "): " ++ description (status r) ++ nl)
                (nl ++ lit "Output:" ++ nl) _ Hout) as (o1 & ->).
    cbn [JS.bind].
    destruct (append_decoded_total o1 (nl ++ lit "Errors:" ++ nl) _ Herr)
      as (o2 & ->).
    cbn [JS.bind]. now apply append_decoded_total.
Qed.

Lemma summary_info_block r :
  summary r = info_block r (shown_time r) (shown_memory r).
Proof.
  unfold summary, info_block, shown_time, shown_memory, or_else, memory_or_NA,
    truthy_number, placeholder.
  replace (match time r with
           | Some s => if truthy_string s then s else lit "N/A"
           | None => lit "N/A"
           end)
    with (match time r with
          | Some (c :: t) => c :: t
          | _ => lit "N/A"
          end)
    by (destruct (time r) as [[|c t]|]; reflexivity).
  replace (match memory r with
           | Some n => if negb (n =? 0)%Z then Number_toString n else lit "N/A"
           | None => lit "N/A"
           end)
    with (match memory r with
          | Some 0%Z | None => lit "N/A"
          | Some m => Number_toString m
          end)
    by (destruct (memory r) as [[|m|m]|]; reflexivity).
  now rewrite <- !app_assoc.
Qed.

(** C5, amended. For every result whose payloads are transport-encoded,
    [formatOutput] returns a text that ends with the information block: the
    status description and the status code as they are, the time, and the
    memory; "N/A" stands for the time when the time is absent or empty, and
    for the memory when the memory is absent or zero. *)
Theorem formatOutput_appends_info :
  forall r,
    payloads_encoded r ->
    exists body,
      formatOutput r
      = Ok (body ++ info_block r (shown_time r) (shown_memory r)).
Proof.
  intros r H. destruct (narrative_total r H) as (body & Hb).
  exists body. unfold formatOutput. rewrite Hb. simpl.
  now rewrite summary_info_block.
Qed.

Lemma formatOutput_appends_info_witness :
  exists body,
    formatOutput Sample.compile_error
    = Ok (body ++ info_block Sample.compile_error (lit "N/A") (lit "N/A")).
Proof.
  apply (formatOutput_appends_info Sample.compile_error).
  intros [] s; simpl; intros [= <-]; reflexivity.
Defined.

(** C5, as stated, fails: a memory of zero is present, and the placeholder
    is shown for it. *)
Lemma zero_memory_shows_placeholder : ~ placeholders_exactly_when_absent.
Proof.
  intros H.
  destruct (H Sample.zero_memory (lit "Time Limit Exceeded" ++ nl)
              (lit "5.0") placeholder eq_refl) as (_ & Hm).
  destruct Hm as (Hm & _). specialize (Hm eq_refl). discriminate.
Qed.

(** The two formatting scenarios of the specification. *)
Example accepted_hi :
  formatOutput
    (mkExecutionResult (Some (lit "aGkK")) None None
       (mkStatus 3 (lit "Accepted")) (Some (lit "0.01")) (Some 3200%Z))
  = Ok (lit "Output:" ++ nl ++ lit "hi" ++ nl
        ++ nl ++ nl ++ lit "--- Execution Info ---"
        ++ nl ++ lit "Status: Accepted (3)"
        ++ nl ++ lit "Time: 0.01s"
        ++ nl ++ lit "Memory: 3200 KB").
Proof. reflexivity. Qed.

Example compile_error_text :
  formatOutput Sample.compile_error
  = Ok (lit "Compilation Error:" ++ nl ++ lit "error: syntax"
        ++ nl ++ nl ++ lit "--- Execution Info ---"
        ++ nl ++ lit "Status: Compilation Error (6)"
        ++ nl ++ lit "Time: N/As"
        ++ nl ++ lit "Memory: N/A KB").
Proof. reflexivity. Qed.

Lemma supported_code c :
  (3 <= c <= 14)%Z ->
  (c = 3 \/ c = 4 \/ c = 5 \/ c = 6 \/ c = 7 \/ c = 8 \/ c = 9 \/ c = 10
   \/ c = 11 \/ c = 12 \/ c = 13 \/ c = 14)%Z.
Proof. lia. Qed.

Ltac each_supported_code H :=
  apply supported_code in H;
  repeat (destruct H as [H|H]).





(* ------------------------------------------------------------------ *)
(** ** The codecs *)

Ltac Zify.zify_post_hook ::= Z.to_euclidean_division_equations.

(** A boolean property of the numbers below [n], checked on each. *)
Lemma below_all (P : N -> bool) (n : nat) :
  forallb P (map N.of_nat (seq 0 n)) = true ->
  forall v, v < N.of_nat n -> P v = true.
Proof.
  intros H v Hv. rewrite forallb_forall in H. apply H.
  apply in_map_iff. exists (N.to_nat v). split; [lia|].
  apply in_seq. lia.
Qed.

Lemma hex_value_digit v : v < 16 -> hex_value (hex_digit v) = Some v.
Proof.
  intros H.
  pose proof (below_all
    (fun v => match hex_value (hex_digit v) with
              | Some x => x =? v
              | None => false
              end) 16 eq_refl v H) as E.
  cbv beta in E. destruct (hex_value (hex_digit v)); [|discriminate].
  apply N.eqb_eq in E. now subst.
Qed.

Lemma hex_digit_range v : v < 16 -> 48 <= hex_digit v <= 70.
Proof.
  intros H. unfold hex_digit. destruct (N.ltb_spec v 10); lia.
Qed.

Lemma hex_byte_pct b :
  b < 256 -> hex_byte (hex_digit (b / 16)) (hex_digit (b mod 16)) = Some b.
Proof.
  intros H. unfold hex_byte.
  rewrite !hex_value_digit by lia. f_equal. lia.
Qed.

Lemma pct_octet_pct b :
  b < 256 ->
  pct_octet percent (hex_digit (b / 16)) (hex_digit (b mod 16)) = Some b.
Proof. intros H. unfold pct_octet. simpl. now apply hex_byte_pct. Qed.

(** *** [unescape] after [encodeURIComponent] *)

Lemma unescape_copy c t : c <> percent -> unescape (c :: t) = c :: unescape t.
Proof.
  intros H. cbn [unescape]. apply N.eqb_neq in H. now rewrite H.
Qed.

Lemma unescape_pct b t : b < 256 -> unescape (pct b ++ t) = b :: unescape t.
Proof.
  intros H. cbn [pct app unescape].
  change (percent =? percent) with true. cbv iota.
  rewrite hex_byte_pct by exact H.
  assert (Hu : (hex_digit (b / 16) =? 117) = false).
  { apply N.eqb_neq. pose proof (hex_digit_range (b / 16)). lia. }
  rewrite Hu. reflexivity.
Qed.

Lemma unescape_pct_octets bs t :
  forallb (fun b => b <=? 255) bs = true ->
  unescape (pct_octets bs ++ t) = bs ++ unescape t.
Proof.
  induction bs as [|b bs IH]; intros H; [reflexivity|].
  simpl in H. apply andb_true_iff in H as [Hb H]. apply N.leb_le in Hb.
  unfold pct_octets. cbn [flat_map]. rewrite <- app_assoc.
  rewrite unescape_pct by lia. cbn [app]. f_equal. now apply IH.
Qed.

(** *** Well-formed strings, one code point at a time *)

Ltac unbool H :=
  unfold is_lead, is_trail, is_continuation, is_alpha, is_digit, in_range in H;
  repeat rewrite ?orb_true_iff, ?andb_true_iff, ?orb_false_iff,
    ?andb_false_iff, ?negb_true_iff, ?negb_false_iff,
    ?N.leb_le, ?N.ltb_lt, ?N.eqb_eq, ?N.leb_gt, ?N.ltb_ge, ?N.eqb_neq in H.

Lemma well_formed_induction (P : jsstring -> Prop) :
  P [] ->
  (forall c t, is_lead c = false -> is_trail c = false -> c < 65536 ->
               well_formed t = true -> P t -> P (c :: t)) ->
  (forall c d t, is_lead c = true -> is_trail d = true ->
                 well_formed t = true -> P t -> P (c :: d :: t)) ->
  forall s, well_formed s = true -> P s.
Proof.
  intros Hnil Hone Hpair s.
  assert (H : forall n s, (List.length s <= n)%nat ->
                          well_formed s = true -> P s).
  { clear s. induction n as [|n IH]; intros [|c t] Hlen Hwf;
      try exact Hnil; simpl in Hlen; [lia|].
    cbn [well_formed] in Hwf. destruct (is_lead c) eqn:Hc.
    - destruct t as [|d t']; [discriminate|].
      apply andb_true_iff in Hwf as [Hd Hwf].
      apply Hpair; auto. apply IH; [simpl in Hlen; lia | exact Hwf].
    - apply andb_true_iff in Hwf as [Hwf Ht].
      apply andb_true_iff in Hwf as [Hwf Hb].
      apply negb_true_iff in Hwf. apply N.ltb_lt in Hb.
      apply Hone; auto. apply IH; [lia | exact Ht]. }
  apply (H (List.length s)). lia.
Qed.

Lemma utf8_octets cp :
  cp < 1114112 -> forallb (fun b => b <=? 255) (utf8 cp) = true.
Proof.
  intros H. unfold utf8.
  destruct (N.ltb_spec cp 128); [|destruct (N.ltb_spec cp 2048);
    [|destruct (N.ltb_spec cp 65536)]];
    cbn [forallb]; rewrite ?andb_true_iff, ?N.leb_le; repeat split; lia.
Qed.

Lemma pair_code_point_range c d :
  is_lead c = true -> is_trail d = true ->
  65536 <= pair_code_point c d < 1114112.
Proof.
  intros Hc Hd. unbool Hc. unbool Hd. unfold pair_code_point. lia.
Qed.

Lemma utf16_pair c d :
  is_lead c = true -> is_trail d = true ->
  utf16 (pair_code_point c d) = [c; d].
Proof.
  intros Hc Hd. pose proof (pair_code_point_range c d Hc Hd) as Hr.
  unbool Hc. unbool Hd. unfold utf16.
  destruct (N.leb_spec (pair_code_point c d) 65535); [lia|].
  unfold pair_code_point in *. f_equal; [|f_equal]; lia.
Qed.

Lemma uri_unreserved_ascii c :
  uri_unreserved c = true -> c < 128 /\ c <> percent.
Proof.
  unfold uri_unreserved, one_of, percent.
  change (lit "-_.!~*'()") with [45; 95; 46; 33; 126; 42; 39; 40; 41].
  cbn [existsb]. intros H. unbool H. lia.
Qed.

Lemma utf8_string_octets s :
  well_formed s = true ->
  forallb (fun b => b <=? 255) (utf8_string s) = true.
Proof.
  revert s. apply well_formed_induction.
  - reflexivity.
  - intros c t Hl Ht Hc _ IH. cbn [utf8_string]. rewrite Hl.
    rewrite forallb_app, IH, utf8_octets by lia. reflexivity.
  - intros c d t Hc Hd _ IH. cbn [utf8_string]. rewrite Hc.
    pose proof (pair_code_point_range c d Hc Hd).
    rewrite forallb_app, IH, utf8_octets by lia. reflexivity.
Qed.

(** [unescape(encodeURIComponent(s))] is the UTF-8 of [s]. *)
Lemma unescape_encodeURIComponent s :
  well_formed s = true ->
  exists e, encodeURIComponent s = Ok e /\ unescape e = utf8_string s.
Proof.
  revert s. apply well_formed_induction.
  - exists []. split; reflexivity.
  - intros c t Hl Ht Hc _ (e & He & Hu).
    cbn [encodeURIComponent utf8_string]. rewrite He, Hl, Ht. cbn [JS.bind].
    destruct (uri_unreserved c) eqn:Hr.
    + apply uri_unreserved_ascii in Hr as [Hlt Hne].
      exists (c :: e). split; [reflexivity|].
      rewrite unescape_copy, Hu by exact Hne.
      unfold utf8. destruct (N.ltb_spec c 128); [reflexivity | lia].
    + exists (pct_octets (utf8 c) ++ e). split; [reflexivity|].
      rewrite unescape_pct_octets, Hu; [reflexivity|].
      apply utf8_octets. lia.
  - intros c d t Hc Hd _ (e & He & Hu).
    cbn [encodeURIComponent utf8_string]. rewrite He, Hc, Hd. cbn [JS.bind].
    assert (Hr : uri_unreserved c = false).
    { destruct (uri_unreserved c) eqn:Hr; [|reflexivity].
      apply uri_unreserved_ascii in Hr. unbool Hc. lia. }
    rewrite Hr. exists (pct_octets (utf8 (pair_code_point c d)) ++ e).
    split; [reflexivity|].
    pose proof (pair_code_point_range c d Hc Hd).
    rewrite unescape_pct_octets, Hu; [reflexivity|].
    apply utf8_octets. lia.
Qed.

(** *** [atob] after [btoa] *)

Lemma b64_value_char v : v < 64 -> b64_value (b64_char v) = Some v.
Proof.
  intros H.
  pose proof (below_all
    (fun v => match b64_value (b64_char v) with
              | Some x => x =? v
              | None => false
              end) 64 eq_refl v H) as E.
  cbv beta in E. destruct (b64_value (b64_char v)); [|discriminate].
  apply N.eqb_eq in E. now subst.
Qed.

Lemma b64_char_plain v :
  v < 64 ->
  is_ascii_whitespace (b64_char v) = false /\ b64_char v <> equals_sign.
Proof.
  intros H.
  pose proof (below_all
    (fun v => negb (is_ascii_whitespace (b64_char v))
              && negb (b64_char v =? equals_sign)) 64 eq_refl v H) as E.
  cbv beta in E. apply andb_true_iff in E as [E1 E2].
  apply negb_true_iff in E1, E2. apply N.eqb_neq in E2. auto.
Qed.

(** Induction on a list, three elements at a time. *)
Lemma list_induction_3 {A} (P : list A -> Prop) :
  P [] -> (forall a, P [a]) -> (forall a b, P [a; b]) ->
  (forall a b c rest, P rest -> P (a :: b :: c :: rest)) ->
  forall l, P l.
Proof.
  intros H0 H1 H2 H3.
  fix IH 1.
  intros [|a [|b [|c rest]]];
    [exact H0 | apply H1 | apply H2 | apply H3, IH].
Qed.

(** The text [btoa] writes: alphabet characters of six-bit values that
    give the octets back, then padding up to a multiple of four. *)
Lemma b64_encode_shape bs :
  forallb (fun b => b <=? 255) bs = true ->
  exists vs pad,
    b64_encode bs = map b64_char vs ++ pad
    /\ Forall (fun v => v < 64) vs
    /\ (pad = [] \/ pad = [equals_sign] \/ pad = [equals_sign; equals_sign])
    /\ ((List.length vs + List.length pad) mod 4 = 0)%nat
    /\ b64_octets vs = bs.
Proof.
  induction bs as [| a | a b | a b c rest IH] using list_induction_3;
    cbn [forallb]; rewrite ?andb_true_iff, ?N.leb_le; intros H.
  - exists [], []. repeat split; auto.
  - exists [a / 4; (a mod 4) * 16], [equals_sign; equals_sign].
    repeat split; auto.
    + repeat constructor; lia.
    + cbn [b64_octets]. f_equal. lia.
  - exists [a / 4; (a mod 4) * 16 + b / 16; (b mod 16) * 4], [equals_sign].
    repeat split; auto.
    + repeat constructor; lia.
    + cbn [b64_octets]. f_equal; [|f_equal]; lia.
  - destruct H as (Ha & Hb & Hc & Hrest).
    destruct (IH Hrest) as (vs & pad & He & Hvs & Hpad & Hlen & Hoct).
    exists (a / 4 :: (a mod 4) * 16 + b / 16 :: (b mod 16) * 4 + c / 64
            :: c mod 64 :: vs), pad.
    repeat split; auto.
    + cbn [b64_encode map app]. now rewrite He.
    + repeat constructor; try lia. exact Hvs.
    + cbn [List.length]. cbn [List.length] in Hlen.
      replace (S (S (S (S (List.length vs)))) + List.length pad)%nat
        with (List.length vs + List.length pad + 1 * 4)%nat by lia.
      now rewrite Nat.Div0.mod_add.
    + cbn [b64_octets]. rewrite Hoct. f_equal; [|f_equal; [|f_equal]]; lia.
Qed.

Lemma b64_values_chars vs :
  Forall (fun v => v < 64) vs -> b64_values (map b64_char vs) = Some vs.
Proof.
  induction 1 as [|v vs Hv _ IH]; [reflexivity|].
  cbn [map b64_values]. now rewrite b64_value_char, IH.
Qed.

Lemma no_whitespace_in_base64 vs pad :
  Forall (fun v => v < 64) vs ->
  pad = [] \/ pad = [equals_sign] \/ pad = [equals_sign; equals_sign] ->
  filter (fun c => negb (is_ascii_whitespace c)) (map b64_char vs ++ pad)
  = map b64_char vs ++ pad.
Proof.
  intros Hvs Hpad. rewrite filter_app. f_equal.
  - induction Hvs as [|v vs Hv _ IH]; [reflexivity|].
    cbn [map filter]. destruct (b64_char_plain v Hv) as [-> _].
    cbn [negb]. now rewrite IH.
  - destruct Hpad as [->|[->| ->]]; reflexivity.
Qed.

Lemma last_char_not_equals vs x r :
  Forall (fun v => v < 64) vs ->
  rev (map b64_char vs) = x :: r -> (x =? equals_sign) = false.
Proof.
  intros Hvs E. apply N.eqb_neq.
  assert (Hin : In x (map b64_char vs)).
  { apply in_rev. rewrite E. now left. }
  apply in_map_iff in Hin as (v & <- & Hv).
  rewrite Forall_forall in Hvs. now apply b64_char_plain, Hvs.
Qed.

Lemma strip_padding_base64 vs pad :
  Forall (fun v => v < 64) vs ->
  pad = [] \/ pad = [equals_sign] \/ pad = [equals_sign; equals_sign] ->
  ((List.length vs + List.length pad) mod 4 = 0)%nat ->
  strip_padding (map b64_char vs ++ pad) = map b64_char vs.
Proof.
  intros Hvs Hpad Hlen. unfold strip_padding.
  rewrite length_app, length_map.
  replace (N.of_nat (List.length vs + List.length pad) mod 4 =? 0) with true.
  2:{ symmetry. apply N.eqb_eq.
      apply Nat.Div0.div_exact in Hlen. rewrite Hlen.
      rewrite Nat2N.inj_mul. cbn [N.of_nat Pos.of_succ_nat Pos.succ].
      now rewrite N.mul_comm, N.Div0.mod_mul. }
  rewrite rev_app_distr.
  destruct Hpad as [->|[->| ->]]; cbn [rev app].
  - rewrite app_nil_r.
    destruct (rev (map b64_char vs)) as [|x [|y r]] eqn:E; auto;
      now rewrite (last_char_not_equals vs x _ Hvs E).
  - change (equals_sign =? equals_sign) with true. cbv iota.
    destruct (rev (map b64_char vs)) as [|y r] eqn:E.
    + apply (f_equal (@rev N)) in E. now rewrite rev_involutive in E.
    + rewrite (last_char_not_equals vs y _ Hvs E).
      apply (f_equal (@rev N)) in E. rewrite rev_involutive in E.
      rewrite E. reflexivity.
  - change (equals_sign =? equals_sign) with true. cbv iota.
    apply rev_involutive.
Qed.

Lemma atob_b64_encode bs :
  forallb (fun b => b <=? 255) bs = true -> atob (b64_encode bs) = Ok bs.
Proof.
  intros H.
  destruct (b64_encode_shape bs H) as (vs & pad & He & Hvs & Hpad & Hlen & Hoct).
  unfold atob. rewrite He.
  rewrite (no_whitespace_in_base64 vs pad Hvs Hpad).
  rewrite (strip_padding_base64 vs pad Hvs Hpad Hlen).
  rewrite (b64_values_chars vs Hvs), Hoct, length_map.
  replace (N.of_nat (List.length vs) mod 4 =? 1) with false; [reflexivity|].
  symmetry. apply N.eqb_neq.
  assert (Hp : (List.length pad <= 2)%nat)
    by (destruct Hpad as [->|[->| ->]]; simpl; lia).
  intros E.
  assert (E' : (List.length vs mod 4 = 1)%nat).
  { apply Nat2N.inj. rewrite Nat2N.inj_mod. exact E. }
  rewrite Nat.Div0.add_mod, E' in Hlen.
  rewrite (Nat.mod_small (List.length pad)) in Hlen by lia.
  destruct (List.length pad) as [|[|[|n]]]; simpl in Hlen; try discriminate; lia.
Qed.

(** *** [decodeURIComponent] after [escape] *)

Ltac ltb_cases :=
  repeat match goal with
         | |- context [?a <? ?b] => destruct (N.ltb_spec a b); try lia
         | |- context [?a <=? ?b] => destruct (N.leb_spec a b); try lia
         end.

Lemma escape_unescaped_ascii c :
  escape_unescaped c = true -> c < 128 /\ c <> percent.
Proof.
  unfold escape_unescaped, one_of, percent.
  change (lit "@*_+-./") with [64; 42; 95; 43; 45; 46; 47].
  cbn [existsb]. intros H. unbool H. lia.
Qed.

Lemma escape_octet b : 128 <= b < 256 -> escape_unit b = pct b.
Proof.
  intros H. unfold escape_unit.
  destruct (escape_unescaped b) eqn:E.
  - apply escape_unescaped_ascii in E. lia.
  - ltb_cases. reflexivity.
Qed.

Lemma utf8_value2_utf8 cp :
  128 <= cp < 2048 ->
  utf8_value2 (192 + cp / 64) (128 + cp mod 64) = Some cp.
Proof.
  intros H. unfold utf8_value2, is_continuation, in_range.
  replace ((192 + cp / 64 - 192) * 64 + (128 + cp mod 64 - 128)) with cp by lia.
  ltb_cases. reflexivity.
Qed.

Lemma utf8_value3_utf8 cp :
  2048 <= cp < 65536 -> ~ 55296 <= cp <= 57343 ->
  utf8_value3 (224 + cp / 4096) (128 + (cp / 64) mod 64) (128 + cp mod 64)
  = Some cp.
Proof.
  intros H Hs. unfold utf8_value3, is_continuation, in_range.
  replace ((224 + cp / 4096 - 224) * 4096 + (128 + (cp / 64) mod 64 - 128) * 64
           + (128 + cp mod 64 - 128)) with cp by lia.
  ltb_cases; reflexivity.
Qed.

Lemma utf8_value4_utf8 cp :
  65536 <= cp < 1114112 ->
  utf8_value4 (240 + cp / 262144) (128 + (cp / 4096) mod 64)
    (128 + (cp / 64) mod 64) (128 + cp mod 64)
  = Some cp.
Proof.
  intros H. unfold utf8_value4, is_continuation, in_range.
  replace ((240 + cp / 262144 - 240) * 262144
           + (128 + (cp / 4096) mod 64 - 128) * 4096
           + (128 + (cp / 64) mod 64 - 128) * 64
           + (128 + cp mod 64 - 128)) with cp by lia.
  ltb_cases; reflexivity.
Qed.

Lemma decode_copy c t :
  c <> percent ->
  decodeURIComponent (c :: t) = (r <- decodeURIComponent t ;; Ok (c :: r)).
Proof.
  intros H. cbn [decodeURIComponent]. apply N.eqb_neq in H. now rewrite H.
Qed.

(** One turn of [decodeURIComponent] on the escape of a leading octet. *)
Lemma decode_pct b0 t :
  b0 < 256 ->
  decodeURIComponent (pct b0 ++ t)
  = if b0 <? 128 then r <- decodeURIComponent t ;; Ok (b0 :: r)
    else if b0 <? 192 then Throw uri_malformed
    else if b0 <? 224 then
      match t with
      | p1 :: a1 :: c1 :: t2 =>
        match pct_octet p1 a1 c1 with
        | Some b1 =>
          match utf8_value2 b0 b1 with
          | Some v => r <- decodeURIComponent t2 ;; Ok (utf16 v ++ r)
          | None => Throw uri_malformed
          end
        | None => Throw uri_malformed
        end
      | _ => Throw uri_malformed
      end
    else if b0 <? 240 then
      match t with
      | p1 :: a1 :: c1 :: p2 :: a2 :: c2 :: t2 =>
        match pct_octet p1 a1 c1, pct_octet p2 a2 c2 with
        | Some b1, Some b2 =>
          match utf8_value3 b0 b1 b2 with
          | Some v => r <- decodeURIComponent t2 ;; Ok (utf16 v ++ r)
          | None => Throw uri_malformed
          end
        | _, _ => Throw uri_malformed
        end
      | _ => Throw uri_malformed
      end
    else if b0 <? 248 then
      match t with
      | p1 :: a1 :: c1 :: p2 :: a2 :: c2 :: p3 :: a3 :: c3 :: t2 =>
        match pct_octet p1 a1 c1, pct_octet p2 a2 c2, pct_octet p3 a3 c3 with
        | Some b1, Some b2, Some b3 =>
          match utf8_value4 b0 b1 b2 b3 with
          | Some v => r <- decodeURIComponent t2 ;; Ok (utf16 v ++ r)
          | None => Throw uri_malformed
          end
        | _, _, _ => Throw uri_malformed
        end
      | _ => Throw uri_malformed
      end
    else Throw uri_malformed.
Proof.
  intros H. cbn [pct app decodeURIComponent].
  change (percent =? percent) with true. cbv iota.
  rewrite hex_byte_pct by exact H. reflexivity.
Qed.

(** The escape of the UTF-8 of one code point decodes to its UTF-16. *)
Lemma decode_code_point cp t :
  cp < 1114112 -> ~ 55296 <= cp <= 57343 ->
  decodeURIComponent (escape (utf8 cp) ++ t)
  = (r <- decodeURIComponent t ;; Ok (utf16 cp ++ r)).
Proof.
  intros H Hs. unfold utf8, escape.
  destruct (N.ltb_spec cp 128) as [H1|H1];
    [|destruct (N.ltb_spec cp 2048) as [H2|H2];
      [|destruct (N.ltb_spec cp 65536) as [H3|H3]]];
    cbn [flat_map]; rewrite ?app_nil_r.
  - assert (U : utf16 cp = [cp]) by (unfold utf16; ltb_cases; reflexivity).
    rewrite U. unfold escape_unit.
    destruct (escape_unescaped cp) eqn:E.
    + apply escape_unescaped_ascii in E as [_ E].
      cbn [app]. now rewrite decode_copy.
    + ltb_cases. rewrite decode_pct by lia. ltb_cases. reflexivity.
  - rewrite !escape_octet by lia. rewrite <- app_assoc.
    rewrite decode_pct by lia. ltb_cases.
    cbn [pct app]. rewrite pct_octet_pct by lia.
    rewrite utf8_value2_utf8 by lia. reflexivity.
  - rewrite !escape_octet by lia. rewrite <- !app_assoc.
    rewrite decode_pct by lia. ltb_cases.
    cbn [pct app]. rewrite !pct_octet_pct by lia.
    rewrite utf8_value3_utf8 by lia. reflexivity.
  - rewrite !escape_octet by lia. rewrite <- !app_assoc.
    rewrite decode_pct by lia. ltb_cases.
    cbn [pct app]. rewrite !pct_octet_pct by lia.
    rewrite utf8_value4_utf8 by lia. reflexivity.
Qed.

Lemma decodeURIComponent_escape s :
  well_formed s = true ->
  decodeURIComponent (escape (utf8_string s)) = Ok s.
Proof.
  revert s. apply well_formed_induction.
  - reflexivity.
  - intros c t Hl Ht Hc _ IH. cbn [utf8_string]. rewrite Hl.
    unfold escape in *. rewrite flat_map_app.
    unbool Hl. unbool Ht.
    rewrite (decode_code_point c) by lia. rewrite IH. cbn [JS.bind].
    unfold utf16. ltb_cases. reflexivity.
  - intros c d t Hc Hd _ IH. cbn [utf8_string]. rewrite Hc.
    unfold escape in *. rewrite flat_map_app.
    pose proof (pair_code_point_range c d Hc Hd).
    rewrite (decode_code_point (pair_code_point c d)) by lia.
    rewrite IH. cbn [JS.bind]. now rewrite utf16_pair.
Qed.

(** *** The two helpers of the client *)

Lemma encodeBase64_utf8 s :
  well_formed s = true -> encodeBase64 s = Ok (b64_encode (utf8_string s)).
Proof.
  intros H. unfold encodeBase64.
  destruct (unescape_encodeURIComponent s H) as (e & -> & Hu).
  cbn [JS.bind]. rewrite Hu. unfold btoa.
  rewrite (utf8_string_octets s H). reflexivity.
Qed.

Lemma decodeBase64_utf8 s :
  well_formed s = true -> decodeBase64 (b64_encode (utf8_string s)) = Ok s.
Proof.
  intros H. unfold decodeBase64.
  rewrite (atob_b64_encode _ (utf8_string_octets s H)). cbn [JS.bind].
  rewrite (decodeURIComponent_escape s H). reflexivity.
Qed.

(** C4. For every string of Unicode text, that is every well-formed
    string of code units (ASCII text, text with code points of any UTF-8
    length, and the empty string), [encodeBase64] returns a text from
    which [decodeBase64] gives the string back. *)
Theorem base64_round_trip :
  forall s, well_formed s = true -> round_trips s.
Proof.
  intros s H. exists (b64_encode (utf8_string s)).
  split; [now apply encodeBase64_utf8 | now apply decodeBase64_utf8].
Qed.

Lemma base64_round_trip_witness :
  round_trips (lit "hi " ++ [233; 8364; 55357; 56832]).
Proof.
  apply base64_round_trip. reflexivity.
Defined.

(** A string that is not well formed makes [encodeURIComponent] throw,
    and holds a unit that [btoa] refuses. *)
Lemma ill_formed_refused s :
  Forall (fun c => c < 65536) s ->
  well_formed s = false ->
  encodeURIComponent s = Throw uri_malformed
  /\ forallb (fun c => c <=? 255) s = false.
Proof.
  assert (H : forall n s, (List.length s <= n)%nat ->
            Forall (fun c => c < 65536) s -> well_formed s = false ->
            encodeURIComponent s = Throw uri_malformed
            /\ forallb (fun c => c <=? 255) s = false).
  { clear s. induction n as [|n IH]; intros [|c t] Hlen Hu Hwf;
      try discriminate; simpl in Hlen; [lia|].
    inversion Hu as [|? ? Hc Ht]; subst.
    cbn [well_formed] in Hwf. cbn [encodeURIComponent forallb].
    destruct (uri_unreserved c) eqn:Hr.
    - apply uri_unreserved_ascii in Hr as [Hlt _].
      destruct (is_lead c) eqn:Hl; [unbool Hl; lia|].
      destruct (is_trail c) eqn:Htr; [unbool Htr; lia|].
      apply N.ltb_lt in Hc. rewrite Hc in Hwf. simpl in Hwf.
      destruct (IH t ltac:(lia) Ht Hwf) as [-> ->].
      split; [reflexivity | apply andb_false_r].
    - destruct (is_lead c) eqn:Hl.
      + assert (Hbig : (c <=? 255) = false)
          by (apply N.leb_gt; unbool Hl; lia).
        rewrite Hbig. split; [|reflexivity].
        destruct t as [|d t']; [reflexivity|].
        destruct (is_trail d); [|reflexivity]. simpl in Hwf.
        inversion Ht; subst.
        destruct (IH t' ltac:(simpl in Hlen; lia) ltac:(assumption) Hwf)
          as [-> _].
        reflexivity.
      + destruct (is_trail c) eqn:Htr.
        * split; [reflexivity|].
          replace (c <=? 255) with false; [reflexivity|].
          symmetry. apply N.leb_gt. unbool Htr. lia.
        * apply N.ltb_lt in Hc. rewrite Hc in Hwf. simpl in Hwf.
          destruct (IH t ltac:(lia) Ht Hwf) as [-> ->].
          split; [reflexivity | apply andb_false_r]. }
  apply (H (List.length s)). lia.
Qed.

(** On a string that is not well formed [encodeBase64] throws: the
    fallback [btoa(str)] throws as well. *)
Lemma encodeBase64_ill_formed s :
  Forall (fun c => c < 65536) s ->
  well_formed s = false ->
  encodeBase64 s = Throw invalid_character_btoa.
Proof.
  intros Hu Hwf. destruct (ill_formed_refused s Hu Hwf) as [He Hb].
  unfold encodeBase64, btoa. rewrite He, Hb. reflexivity.
Qed.

(* ------------------------------------------------------------------ *)
(** ** More on the two codec helpers *)

Import Behaviour.

(** X1. On a string of code units [encodeBase64] returns the base64 of the
    UTF-8 octets when the string is well formed, and throws the error of
    [btoa] when it is not: the fallback never yields a value. *)
Theorem encodeBase64_value :
  forall s,
    Forall (fun c => c < 65536) s ->
    encodeBase64 s
    = if well_formed s then Ok (b64_encode (utf8_string s))
      else Throw invalid_character_btoa.
Proof.
  intros s Hu. destruct (well_formed s) eqn:Hwf.
  - now apply encodeBase64_utf8.
  - destruct (ill_formed_refused s Hu Hwf) as [He Hb].
    unfold encodeBase64, btoa. rewrite He, Hb. reflexivity.
Qed.

Lemma encodeBase64_value_witness :
  encodeBase64 [97; 56832; 98] = Throw invalid_character_btoa.
Proof.
  apply (encodeBase64_value [97; 56832; 98]).
  repeat constructor.
Defined.

Lemma b64_encode_text bs :
  forallb (fun b => b <=? 255) bs = true ->
  base64_text (b64_encode bs) = true
  /\ N.of_nat (List.length (b64_encode bs)) mod 4 = 0.
Proof.
  intros H.
  destruct (b64_encode_shape bs H) as (vs & pad & -> & Hvs & Hpad & Hlen & _).
  split.
  - unfold base64_text. rewrite forallb_app. apply andb_true_iff. split.
    + apply forallb_forall. intros c Hc.
      apply in_map_iff in Hc as (v & <- & Hv).
      rewrite Forall_forall in Hvs. now rewrite b64_value_char by auto.
    + destruct Hpad as [->|[->| ->]]; reflexivity.
  - rewrite length_app, length_map.
    apply Nat.Div0.div_exact in Hlen. rewrite Hlen.
    rewrite Nat2N.inj_mul. cbn [N.of_nat Pos.of_succ_nat Pos.succ].
    now rewrite N.mul_comm, N.Div0.mod_mul.
Qed.

(** X2. Whatever [encodeBase64] returns is made of base64 alphabet
    characters and padding signs only, and its length is a multiple of
    four. *)
Theorem encodeBase64_text :
  forall s encoded,
    encodeBase64 s = Ok encoded ->
    base64_text encoded = true
    /\ N.of_nat (List.length encoded) mod 4 = 0.
Proof.
  intros s encoded. unfold encodeBase64, JS.try_catch, JS.bind, btoa.
  destruct (encodeURIComponent s) as [e|x].
  - destruct (forallb (fun c => c <=? 255) (unescape e)) eqn:H1.
    + intros [= <-]. now apply b64_encode_text.
    + destruct (forallb (fun c => c <=? 255) s) eqn:H2; [|discriminate].
      intros [= <-]. now apply b64_encode_text.
  - destruct (forallb (fun c => c <=? 255) s) eqn:H2; [|discriminate].
    intros [= <-]. now apply b64_encode_text.
Qed.

Lemma encodeBase64_text_witness :
  base64_text (lit "aMOpIOKCrA==") = true
  /\ N.of_nat (List.length (lit "aMOpIOKCrA==")) mod 4 = 0.
Proof.
  apply (encodeBase64_text [104; 233; 32; 8364]). reflexivity.
Defined.

(** *** What [decodeURIComponent] accepts after [escape] *)

Lemma escape_unit_octet b :
  b <= 255 ->
  (escape_unit b = [b] /\ b < 128 /\ b <> percent) \/ escape_unit b = pct b.
Proof.
  intros H. unfold escape_unit. destruct (escape_unescaped b) eqn:E.
  - left. apply escape_unescaped_ascii in E. tauto.
  - right. ltb_cases. reflexivity.
Qed.

(** An escaped octet read at the head of the escape of a string of octets
    is the first of these octets. *)
Lemma escape_continuation rest p a c t2 b1 :
  forallb (fun b => b <=? 255) rest = true ->
  escape rest = p :: a :: c :: t2 ->
  pct_octet p a c = Some b1 ->
  exists rest',
    rest = b1 :: rest' /\ t2 = escape rest'
    /\ forallb (fun b => b <=? 255) rest' = true.
Proof.
  intros Ho He Hp. destruct rest as [|b rest']; [discriminate|].
  cbn [forallb] in Ho. apply andb_true_iff in Ho as [Hb Ho].
  apply N.leb_le in Hb. exists rest'.
  unfold escape in He. cbn [flat_map] in He. fold (escape rest') in He.
  destruct (escape_unit_octet b Hb) as [(E & _ & Hne)|E]; rewrite E in He.
  - cbn [app] in He. injection He as <- _.
    unfold pct_octet in Hp. apply N.eqb_neq in Hne. rewrite Hne in Hp.
    discriminate.
  - cbn [pct app] in He. injection He as <- <- <- <-.
    rewrite pct_octet_pct in Hp by lia. injection Hp as <-. auto.
Qed.

Lemma utf8_value2_octets b0 b1 v :
  192 <= b0 < 224 -> utf8_value2 b0 b1 = Some v ->
  128 <= v < 2048 /\ utf8 v = [b0; b1].
Proof.
  intros H0. unfold utf8_value2.
  destruct (is_continuation b1 && _) eqn:E; [|discriminate].
  intros [= <-]. unbool E.
  split; [lia|]. unfold utf8. ltb_cases. f_equal; [|f_equal]; lia.
Qed.

Lemma utf8_value3_octets b0 b1 b2 v :
  224 <= b0 < 240 -> utf8_value3 b0 b1 b2 = Some v ->
  2048 <= v < 65536 /\ ~ 55296 <= v <= 57343 /\ utf8 v = [b0; b1; b2].
Proof.
  intros H0. unfold utf8_value3.
  destruct (is_continuation b1 && _ && _ && _) eqn:E; [|discriminate].
  intros [= <-]. unbool E.
  split; [lia|]. split; [lia|]. unfold utf8. ltb_cases.
  f_equal; [|f_equal; [|f_equal]]; lia.
Qed.

Lemma utf8_value4_octets b0 b1 b2 b3 v :
  240 <= b0 < 248 -> utf8_value4 b0 b1 b2 b3 = Some v ->
  65536 <= v < 1114112 /\ utf8 v = [b0; b1; b2; b3].
Proof.
  intros H0. unfold utf8_value4.
  destruct (is_continuation b1 && _ && _ && _) eqn:E; [|discriminate].
  intros [= <-]. unbool E.
  split; [lia|]. unfold utf8. ltb_cases.
  f_equal; [|f_equal; [|f_equal; [|f_equal]]]; lia.
Qed.

(** The UTF-16 units of a code point, put before a well-formed string. *)
Lemma code_point_first v t :
  v < 1114112 -> ~ 55296 <= v <= 57343 ->
  well_formed t = true ->
  well_formed (utf16 v ++ t) = true
  /\ utf8_string (utf16 v ++ t) = utf8 v ++ utf8_string t.
Proof.
  intros Hv Hs Ht. unfold utf16. destruct (N.leb_spec v 65535) as [Hb|Hb].
  - cbn [app well_formed utf8_string].
    assert (Hl : is_lead v = false)
      by (unfold is_lead, in_range; ltb_cases; reflexivity).
    assert (Hr : is_trail v = false)
      by (unfold is_trail, in_range; ltb_cases; reflexivity).
    rewrite Hl, Hr, Ht. cbn [negb andb]. split; [|reflexivity].
    apply andb_true_iff. split; [apply N.ltb_lt; lia | reflexivity].
  - cbn [app well_formed utf8_string].
    set (hi := (v - 65536) / 1024 + 55296).
    set (lo := (v - 65536) mod 1024 + 56320).
    assert (Hl : is_lead hi = true)
      by (unfold is_lead, in_range, hi; ltb_cases; reflexivity).
    assert (Hr : is_trail lo = true)
      by (unfold is_trail, in_range, lo; ltb_cases; reflexivity).
    rewrite Hl, Hr, Ht. split; [reflexivity|].
    replace (pair_code_point hi lo) with v; [reflexivity|].
    unfold pair_code_point, hi, lo. lia.
Qed.

Lemma decoded_text_is_utf8 n : forall bs t,
  (List.length bs <= n)%nat ->
  forallb (fun b => b <=? 255) bs = true ->
  decodeURIComponent (escape bs) = Ok t ->
  well_formed t = true /\ utf8_string t = bs.
Proof.
  induction n as [|n IH]; intros [|b rest] t Hlen Ho Hd;
    try (injection Hd as <-; split; reflexivity);
    cbn [List.length] in Hlen; [lia|].
  cbn [forallb] in Ho. apply andb_true_iff in Ho as [Hb Ho].
  apply N.leb_le in Hb.
  unfold escape in Hd. cbn [flat_map] in Hd. fold (escape rest) in Hd.
  assert (Hone : forall t',
            b < 128 -> decodeURIComponent (escape rest) = Ok t' ->
            well_formed (b :: t') = true /\ utf8_string (b :: t') = b :: rest).
  { intros t' Hlt Ht'. destruct (IH rest t' ltac:(lia) Ho Ht') as [Hwf Hu].
    cbn [well_formed utf8_string].
    assert (Hl : is_lead b = false)
      by (unfold is_lead, in_range; ltb_cases; reflexivity).
    assert (Hr : is_trail b = false)
      by (unfold is_trail, in_range; ltb_cases; reflexivity).
    rewrite Hl, Hr, Hwf, Hu. unfold utf8. ltb_cases. split; reflexivity. }
  destruct (escape_unit_octet b Hb) as [(E & Hlt & Hne)|E]; rewrite E in Hd.
  - cbn [app] in Hd. rewrite decode_copy in Hd by exact Hne.
    destruct (decodeURIComponent (escape rest)) as [t'|] eqn:Ht';
      [|discriminate].
    injection Hd as <-. now apply Hone.
  - rewrite decode_pct in Hd by lia.
    destruct (N.ltb_spec b 128) as [H1|H1].
    { destruct (decodeURIComponent (escape rest)) as [t'|] eqn:Ht';
        [|discriminate].
      injection Hd as <-. now apply Hone. }
    destruct (N.ltb_spec b 192) as [H2|H2]; [discriminate|].
    destruct (N.ltb_spec b 224) as [H3|H3];
      [|destruct (N.ltb_spec b 240) as [H4|H4];
        [|destruct (N.ltb_spec b 248) as [H5|H5]; [|discriminate]]].
    + destruct (escape rest) as [|p1 [|a1 [|c1 t2]]] eqn:Er; try discriminate.
      destruct (pct_octet p1 a1 c1) as [b1|] eqn:Hp1; [|discriminate].
      destruct (utf8_value2 b b1) as [v|] eqn:Hv; [|discriminate].
      destruct (decodeURIComponent t2) as [t'|] eqn:Ht'; [|discriminate].
      injection Hd as <-.
      destruct (escape_continuation _ _ _ _ _ _ Ho Er Hp1)
        as (r1 & -> & -> & Ho1).
      destruct (utf8_value2_octets b b1 v (conj H2 H3) Hv) as (Hr & Hu).
      destruct (IH r1 t' ltac:(cbn [List.length] in Hlen; lia) Ho1 Ht')
        as [Hwf Hs].
      destruct (code_point_first v t' ltac:(lia) ltac:(lia) Hwf) as [W U].
      split; [exact W|]. rewrite U, Hu, Hs. reflexivity.
    + destruct (escape rest) as [|p1 [|a1 [|c1 [|p2 [|a2 [|c2 t2]]]]]] eqn:Er;
        try discriminate.
      destruct (pct_octet p1 a1 c1) as [b1|] eqn:Hp1; [|discriminate].
      destruct (pct_octet p2 a2 c2) as [b2|] eqn:Hp2; [|discriminate].
      destruct (utf8_value3 b b1 b2) as [v|] eqn:Hv; [|discriminate].
      destruct (decodeURIComponent t2) as [t'|] eqn:Ht'; [|discriminate].
      injection Hd as <-.
      destruct (escape_continuation _ _ _ _ _ _ Ho Er Hp1)
        as (r1 & -> & Er1 & Ho1).
      symmetry in Er1.
      destruct (escape_continuation _ _ _ _ _ _ Ho1 Er1 Hp2)
        as (r2 & -> & -> & Ho2).
      destruct (utf8_value3_octets b b1 b2 v (conj H3 H4) Hv) as (Hr & Hns & Hu).
      destruct (IH r2 t' ltac:(cbn [List.length] in Hlen; lia) Ho2 Ht')
        as [Hwf Hs].
      destruct (code_point_first v t' ltac:(lia) Hns Hwf) as [W U].
      split; [exact W|]. rewrite U, Hu, Hs. reflexivity.
    + destruct (escape rest)
        as [|p1 [|a1 [|c1 [|p2 [|a2 [|c2 [|p3 [|a3 [|c3 t2]]]]]]]]] eqn:Er;
        try discriminate.
      destruct (pct_octet p1 a1 c1) as [b1|] eqn:Hp1; [|discriminate].
      destruct (pct_octet p2 a2 c2) as [b2|] eqn:Hp2; [|discriminate].
      destruct (pct_octet p3 a3 c3) as [b3|] eqn:Hp3; [|discriminate].
      destruct (utf8_value4 b b1 b2 b3) as [v|] eqn:Hv; [|discriminate].
      destruct (decodeURIComponent t2) as [t'|] eqn:Ht'; [|discriminate].
      injection Hd as <-.
      destruct (escape_continuation _ _ _ _ _ _ Ho Er Hp1)
        as (r1 & -> & Er1 & Ho1).
      symmetry in Er1.
      destruct (escape_continuation _ _ _ _ _ _ Ho1 Er1 Hp2)
        as (r2 & -> & Er2 & Ho2).
      symmetry in Er2.
      destruct (escape_continuation _ _ _ _ _ _ Ho2 Er2 Hp3)
        as (r3 & -> & -> & Ho3).
      destruct (utf8_value4_octets b b1 b2 b3 v (conj H4 H5) Hv) as (Hr & Hu).
      destruct (IH r3 t' ltac:(cbn [List.length] in Hlen; lia) Ho3 Ht')
        as [Hwf Hs].
      destruct (code_point_first v t' ltac:(lia) ltac:(lia) Hwf) as [W U].
      split; [exact W|]. rewrite U, Hu, Hs. reflexivity.
Qed.

(** X3. On the base64 of any string of octets [decodeBase64] does not
    throw. When the octets are the UTF-8 of a well-formed string it
    returns that string; when they are the UTF-8 of no well-formed string
    it falls back to the octets themselves, one unit per octet. *)
Theorem decodeBase64_of_octets :
  forall bs,
    forallb (fun b => b <=? 255) bs = true ->
    exists t,
      decodeBase64 (b64_encode bs) = Ok t
      /\ (forall s, well_formed s = true -> utf8_string s = bs -> t = s)
      /\ ((forall s, well_formed s = true -> utf8_string s <> bs) -> t = bs).
Proof.
  intros bs H. unfold decodeBase64, JS.try_catch.
  rewrite (atob_b64_encode bs H). cbn [JS.bind].
  destruct (decodeURIComponent (escape bs)) as [t|e] eqn:Hd.
  - exists t. split; [reflexivity|].
    destruct (decoded_text_is_utf8 _ bs t (le_n _) H Hd) as [Hwf Hu].
    split.
    + intros s Hs Hbs. rewrite <- Hbs in Hd.
      rewrite (decodeURIComponent_escape s Hs) in Hd. now injection Hd.
    + intros Hno. now destruct (Hno t Hwf).
  - exists bs. split; [reflexivity|]. split; [|reflexivity].
    intros s Hs Hbs. rewrite <- Hbs in Hd.
    rewrite (decodeURIComponent_escape s Hs) in Hd. discriminate.
Qed.

Lemma decodeBase64_of_octets_witness :
  decodeBase64 (lit "aMOp") = Ok [104; 233].
Proof.
  destruct (decodeBase64_of_octets [104; 195; 169] eq_refl)
    as (t & Hd & Htext & _).
  rewrite <- (Htext [104; 233] eq_refl eq_refl). exact Hd.
Defined.

(** Octets that are no UTF-8 come back as they are. *)
Example decodeBase64_raw_octets : decodeBase64 (lit "/2E=") = Ok [255; 97].
Proof. reflexivity. Qed.

Lemma filter_whitespace_app a ws b :
  forallb is_ascii_whitespace ws = true ->
  filter (fun c => negb (is_ascii_whitespace c)) (a ++ ws ++ b)
  = filter (fun c => negb (is_ascii_whitespace c)) (a ++ b).
Proof.
  intros H. rewrite !filter_app. f_equal.
  replace (filter (fun c => negb (is_ascii_whitespace c)) ws) with (@nil N);
    [reflexivity|].
  induction ws as [|c ws IH]; [reflexivity|].
  simpl in H. apply andb_true_iff in H as [Hc H].
  cbn [filter]. rewrite Hc. cbn [negb]. now apply IH.
Qed.

(** X4. [decodeBase64] does not see ASCII white space: tabs, line feeds,
    form feeds, carriage returns and spaces put anywhere in the payload
    change nothing, be the result a text or an error. *)
Theorem decodeBase64_skips_whitespace :
  forall a ws b,
    forallb is_ascii_whitespace ws = true ->
    decodeBase64 (a ++ ws ++ b) = decodeBase64 (a ++ b).
Proof.
  intros a ws b H.
  assert (E : atob (a ++ ws ++ b) = atob (a ++ b)).
  { unfold atob. now rewrite (filter_whitespace_app a ws b H). }
  unfold decodeBase64. now rewrite E.
Qed.

Lemma decodeBase64_skips_whitespace_witness :
  decodeBase64 (lit "aG" ++ [13; 10] ++ lit "kK") = Ok (lit "hi" ++ nl).
Proof.
  rewrite (decodeBase64_skips_whitespace (lit "aG") [13; 10] (lit "kK") eq_refl).
  reflexivity.
Defined.

(* ------------------------------------------------------------------ *)
(** ** More on [formatOutput] *)

Lemma decodeBase64_is_ok s : is_ok (decodeBase64 s) = is_ok (atob s).
Proof.
  unfold decodeBase64, JS.try_catch, JS.bind.
  destruct (atob s) as [b|e]; [|reflexivity].
  destruct (decodeURIComponent (escape b)); reflexivity.
Qed.

Lemma append_decoded_is_ok output prefix o :
  is_ok (append_decoded output prefix o) = true <-> transport_encoded o.
Proof.
  unfold append_decoded, transport_encoded.
  destruct (present o) as [s|].
  - pose proof (decodeBase64_is_ok s) as E.
    destruct (decodeBase64 s) as [d|e]; cbn [JS.bind is_ok] in *.
    + split; [intros _ s' [= <-]; now rewrite <- E | reflexivity].
    + split; [discriminate|]. intros H. rewrite E. now apply H.
  - split; [intros _ s' [=] | reflexivity].
Qed.

Lemma narrative_unknown r :
  supported (id (status r)) = false ->
  narrative r
  = (o1 <- append_decoded (unknown_header r) (section_title Stdout) (stdout r) ;;
     o2 <- append_decoded o1 (section_title Stderr) (stderr r) ;;
     append_decoded o2 (section_title CompileOutput) (compile_output r)).
Proof.
  unfold supported, narrative. intros H.
  apply andb_false_iff in H. rewrite !Z.leb_gt in H.
  repeat match goal with
         | |- context [(id (status r) =? ?k)%Z] =>
           replace (id (status r) =? k)%Z with false
             by (symmetry; apply Z.eqb_neq; lia)
         end.
  reflexivity.
Qed.

Lemma supported_range c : supported c = true -> (3 <= c <= 14)%Z.
Proof. unfold supported. rewrite andb_true_iff, !Z.leb_le. tauto. Qed.

Lemma accepted_is_ok o :
  is_ok (match present o with
         | Some s => d <- decodeBase64 s ;; Ok (lit "Output:" ++ nl ++ d)
         | None => Ok (lit "Code executed successfully (no output)")
         end) = true
  <-> transport_encoded o.
Proof.
  rewrite <- (append_decoded_is_ok [] [] o). unfold append_decoded.
  destruct (present o) as [s|]; [|tauto].
  destruct (decodeBase64 s); cbn [JS.bind is_ok]; tauto.
Qed.

Lemma for_the_one_field (P : payload -> Prop) f :
  (forall g, In g [f] -> P g) <-> P f.
Proof.
  split; [intros H; apply H; now left | intros H g [<-|[]]; exact H].
Qed.

Lemma for_no_field (P : payload -> Prop) :
  (forall g, In g [] -> P g) <-> True.
Proof. split; [trivial | intros _ g []]. Qed.

(** X5. [formatOutput] completes normally exactly when every payload it
    reads for the status code (the policy field of a code from 3 to 14,
    all three fields of any other code) is absent, empty, or base64 that
    [atob] accepts; the other payloads cannot make it throw. *)
Theorem formatOutput_throws_on_bad_payload_only :
  forall r,
    is_ok (formatOutput r) = true
    <-> (forall f, In f (consulted (id (status r))) ->
                   transport_encoded (field f r)).
Proof.
  intros r.
  assert (E : is_ok (formatOutput r) = is_ok (narrative r))
    by (unfold formatOutput; destruct (narrative r); reflexivity).
  rewrite E. clear E. unfold consulted.
  destruct (supported (id (status r))) eqn:Hs.
  - apply supported_range in Hs. unfold narrative.
    each_supported_code Hs; rewrite Hs; cbn [Z.eqb Pos.eqb policy orb];
      rewrite ?for_the_one_field, ?for_no_field; cbn [field];
      first [ apply accepted_is_ok
            | apply append_decoded_is_ok
            | split; reflexivity || trivial ].
  - rewrite (narrative_unknown r Hs).
    pose proof (append_decoded_is_ok (unknown_header r) (section_title Stdout)
                  (stdout r)) as H1.
    destruct (append_decoded (unknown_header r) (section_title Stdout) (stdout r))
      as [o1|e1]; cbn [JS.bind is_ok] in *.
    + pose proof (append_decoded_is_ok o1 (section_title Stderr) (stderr r)) as H2.
      destruct (append_decoded o1 (section_title Stderr) (stderr r))
        as [o2|e2]; cbn [JS.bind is_ok] in *.
      * rewrite append_decoded_is_ok. split.
        -- intros H f [<-|[<-|[<-|[]]]]; cbn [field]; tauto.
        -- intros H. apply (H CompileOutput). cbn. tauto.
      * split; [discriminate|]. intros H. apply H2, (H Stderr). cbn. tauto.
    + split; [discriminate|]. intros H. apply H1, (H Stdout). cbn. tauto.
Qed.

Lemma formatOutput_throws_on_bad_payload_only_witness :
  is_ok (formatOutput
           (mkExecutionResult (Some (lit "?")) (Some (lit "?")) None
              (mkStatus 5 (lit "Time Limit Exceeded")) None None)) = true.
Proof.
  apply formatOutput_throws_on_bad_payload_only. intros f [].
Defined.

Lemma append_decoded_value output prefix o :
  transport_encoded o ->
  exists section,
    append_decoded output prefix o = Ok (output ++ section)
    /\ (forall s d, present o = Some s -> decodeBase64 s = Ok d ->
                    section = prefix ++ d).
Proof.
  intros H. unfold append_decoded.
  destruct (present o) as [s|] eqn:E.
  - destruct (decodeBase64_total s (H s E)) as (d & Hd). rewrite Hd.
    exists (prefix ++ d). split; [reflexivity|].
    intros s' d' [= <-]. rewrite Hd. now intros [= <-].
  - exists []. rewrite app_nil_r. split; [reflexivity | discriminate].
Qed.

(** X6. For a status code outside 3 to 14 and payloads that are
    transport-encoded, the text starts with the line
    "Unknown Status (code): description" and holds every payload that is
    present and not empty, decoded, under its title: standard output
    under "Output:", standard error under "Errors:", compiler output under
    "Compilation:". *)
Theorem formatOutput_unknown_status :
  forall r,
    supported (id (status r)) = false ->
    payloads_encoded r ->
    exists out,
      formatOutput r = Ok out
      /\ starts_with out (unknown_header r) = true
      /\ (forall f s d,
            present (field f r) = Some s -> decodeBase64 s = Ok d ->
            includes out (section_title f ++ d) = true).
Proof.
  intros r Hs He. unfold formatOutput. rewrite (narrative_unknown r Hs).
  destruct (append_decoded_value (unknown_header r) (section_title Stdout)
              (stdout r) (He Stdout)) as (s1 & -> & H1).
  cbn [JS.bind].
  destruct (append_decoded_value (unknown_header r ++ s1) (section_title Stderr)
              (stderr r) (He Stderr)) as (s2 & -> & H2).
  cbn [JS.bind].
  destruct (append_decoded_value ((unknown_header r ++ s1) ++ s2)
              (section_title CompileOutput) (compile_output r)
              (He CompileOutput)) as (s3 & -> & H3).
  cbn [JS.bind]. eexists. split; [reflexivity|]. split.
  - do 3 apply starts_with_app_l. apply starts_with_app.
  - intros [] s d Hp Hd; cbn [field] in Hp.
    + rewrite <- (H1 s d Hp Hd).
      do 3 apply includes_app_l. apply includes_suffix.
    + rewrite <- (H2 s d Hp Hd).
      do 2 apply includes_app_l. apply includes_suffix.
    + rewrite <- (H3 s d Hp Hd).
      apply includes_app_l. apply includes_suffix.
Qed.

Lemma formatOutput_unknown_status_witness :
  exists out,
    formatOutput Scenario.unknown_15 = Ok out
    /\ starts_with out (unknown_header Scenario.unknown_15) = true
    /\ includes out (nl ++ lit "Compilation:" ++ nl ++ lit "error: syntax") = true.
Proof.
  destruct (formatOutput_unknown_status Scenario.unknown_15 eq_refl)
    as (out & Hout & Hstart & Hincl).
  - intros [] s; simpl; intros [= <-]; reflexivity.
  - exists out. split; [exact Hout|]. split; [exact Hstart|].
    apply (Hincl CompileOutput (lit "ZXJyb3I6IHN5bnRheA==")); reflexivity.
Defined.

(* ------------------------------------------------------------------ *)
(** ** More on [executeCode] *)

Section Runs.

Variable JSON_parse_result : jsstring -> result ExecutionResult.
Variable this : Judge0Service.

Lemma poll_events_succ token k :
  poll_events this token (S k)
  = [Sleep 1000; Fetch (result_request this token)] ++ poll_events this token k.
Proof. reflexivity. Qed.

Lemma after_polls_0 token w : after_polls this token 0 w = w.
Proof.
  unfold after_polls, poll_events. simpl. rewrite app_nil_r. now destruct w.
Qed.

Lemma after_polls_succ token k w :
  after_polls this token k (after_poll this token w)
  = after_polls this token (S k) w.
Proof.
  unfold after_polls. rewrite trace_after_poll, poll_events_succ.
  now rewrite <- app_assoc.
Qed.

Lemma after_polls_last token k w :
  after_poll this token (after_polls this token k w)
  = after_polls this token (S k) w.
Proof.
  rewrite <- after_polls_succ. revert w.
  induction k as [|k IH]; intros w.
  - now rewrite !after_polls_0.
  - rewrite <- !after_polls_succ. apply IH.
Qed.

Lemma translate_world e w : snd (translate e w) = w.
Proof.
  unfold translate.
  destruct (instanceof_Error e); [|reflexivity].
  repeat match goal with
         | |- context [includes ?m ?p] => destruct (includes m p)
         end; reflexivity.
Qed.

Section Configured.

Hypothesis configured : truthy_string (apiKey this) = true.

(** After [k] pending polls the loop stands where it started, [k] turns
    and [k] poll cycles later. *)
Lemma poll_after_pending k : forall m token w,
  polls_pending JSON_parse_result this token w k ->
  poll JSON_parse_result this (k + m) token w
  = poll JSON_parse_result this m token (after_polls this token k w).
Proof.
  induction k as [|k IH]; intros m token w H.
  - now rewrite after_polls_0.
  - destruct (polls_pending_first _ _ _ _ _ H) as (r & Hr & Hid).
    cbn [Nat.add].
    rewrite (poll_turn _ _ configured _ _ _ _ Hr).
    apply Z.leb_le in Hid. rewrite Hid.
    rewrite (IH _ _ _ (polls_pending_rest _ _ _ _ _ H)).
    now rewrite after_polls_succ.
Qed.

Lemma getResult_world token w :
  snd (getResult JSON_parse_result this token w)
  = record (Fetch (result_request this token)) w.
Proof.
  unfold getResult. rewrite configured. cbn [negb].
  unfold Http.try_catch, Http.bind, fetch.
  destruct (remote w (requests_sent w) (result_request this token)) as [e|r];
    [reflexivity|].
  destruct (ok r); cbn [negb]; [|reflexivity].
  unfold lift. destruct (JSON_parse_result (text r)); reflexivity.
Qed.

(** The loop leaves complete poll cycles behind, at most as many as its
    budget. *)
Lemma poll_cycles n : forall token w,
  exists k, (k <= n)%nat
            /\ snd (poll JSON_parse_result this n token w)
               = after_polls this token k w.
Proof.
  induction n as [|n IH]; intros token w.
  - exists 0%nat. split; [lia|]. now rewrite after_polls_0.
  - cbn [poll]. unfold Http.bind at 1. unfold sleep at 1.
    unfold Http.bind at 1.
    pose proof (getResult_world token (record (Sleep 1000) w)) as Hw.
    destruct (getResult JSON_parse_result this token (record (Sleep 1000) w))
      as [[r|e] w']; cbn [snd] in Hw; subst w'.
    + fold (after_poll this token w).
      destruct (id (status r) <=? 2)%Z.
      * destruct (IH token (after_poll this token w)) as (k & Hk & ->).
        exists (S k). split; [lia|]. apply after_polls_succ.
      * exists 1%nat. split; [lia|]. unfold lift. cbn [snd].
        now rewrite <- after_polls_succ, after_polls_0.
    + exists 1%nat. split; [lia|]. cbn [snd].
      fold (after_poll this token w).
      now rewrite <- after_polls_succ, after_polls_0.
Qed.

End Configured.

Variable JSON_parse_submission : jsstring -> result SubmissionReply.

(** [submitCode] throws without a request, or sends the one submission
    request. *)
Lemma submitCode_world languageId sourceCode stdin w :
  (exists e,
     submitCode JSON_parse_submission this languageId sourceCode stdin w
     = (Throw e, w))
  \/ (truthy_string (apiKey this) = true
      /\ exists source64 stdin64,
           snd (submitCode JSON_parse_submission this languageId sourceCode
                  stdin w)
           = record (Fetch (submission_request this languageId source64 stdin64))
               w).
Proof.
  unfold submitCode.
  destruct (truthy_string (apiKey this)) eqn:Hkey; cbn [negb];
    [|left; eexists; reflexivity].
  unfold Http.try_catch, Http.bind, lift.
  destruct (encodeBase64 sourceCode) as [s64|e]; [|left; eexists; reflexivity].
  destruct (if truthy_string stdin then encodeBase64 stdin else Ok [])
    as [i64|e]; [|left; eexists; reflexivity].
  right. split; [reflexivity|]. exists s64, i64.
  unfold fetch.
  destruct (remote w (requests_sent w) (submission_request this languageId s64 i64))
    as [e|r]; [reflexivity|].
  destruct (ok r); cbn [negb].
  - destruct (JSON_parse_submission (text r)) as [d|e]; [|reflexivity].
    destruct (present (token d)); reflexivity.
  - destruct (JSON_parse_submission (text r)); reflexivity.
Qed.

End Runs.

(** X7. When the submission returned a token, the first [k] polls report
    a pending status ([k] below 30) and the next one a status above 2,
    [executeCode] stops at that poll, [k + 1] poll cycles after the
    submission: it returns the formatted result, or what the catch-all
    makes of the error when the formatting throws. *)
Theorem executeCode_first_terminal :
  forall JSON_parse_submission JSON_parse_result this
         languageId sourceCode stdin w token w1 k r,
    truthy_string (apiKey this) = true ->
    submitCode JSON_parse_submission this languageId sourceCode stdin w
      = (Ok token, w1) ->
    (k < 30)%nat ->
    polls_pending JSON_parse_result this token w1 k ->
    poll_reports JSON_parse_result this token (after_polls this token k w1) r ->
    (2 < id (status r))%Z ->
    executeCode JSON_parse_submission JSON_parse_result this
      languageId sourceCode stdin w
    = match formatOutput r with
      | Ok text => (Ok text, after_polls this token (S k) w1)
      | Throw e => translate e (after_polls this token (S k) w1)
      end.
Proof.
  intros ps pr this languageId sourceCode stdin w token w1 k r
         Hkey Hsub Hk Hpend Hr Hid.
  unfold executeCode, Http.try_catch, Http.bind. rewrite Hsub.
  replace maxAttempts with (k + S (29 - k))%nat by (unfold maxAttempts; lia).
  rewrite (poll_after_pending pr this Hkey k _ _ _ Hpend).
  rewrite (poll_turn pr this Hkey _ _ _ _ Hr).
  apply Z.leb_gt in Hid. rewrite Hid.
  rewrite after_polls_last. destruct (formatOutput r); reflexivity.
Qed.

Lemma executeCode_first_terminal_witness :
  executeCode Sample.parse_token Scenario.parse_by_first_letter Sample.service
    71 (lit "print('hi')") [] Scenario.done_at_third_poll
  = (formatOutput Scenario.accepted_hi,
     after_polls Sample.service (lit "tok") 3
       (record (Fetch (submission_request Sample.service 71
                         (lit "cHJpbnQoJ2hpJyk=") []))
          Scenario.done_at_third_poll)).
Proof.
  rewrite (executeCode_first_terminal Sample.parse_token
             Scenario.parse_by_first_letter Sample.service 71
             (lit "print('hi')") [] Scenario.done_at_third_poll (lit "tok")
             (record (Fetch (submission_request Sample.service 71
                               (lit "cHJpbnQoJ2hpJyk=") []))
                Scenario.done_at_third_poll)
             2 Scenario.accepted_hi eq_refl eq_refl).
  - reflexivity.
  - lia.
  - intros [|[|j]] Hj; [| |lia];
      exists (mkResponse 200 (lit "p")), Sample.processing;
      repeat split; simpl; lia.
  - exists (mkResponse 200 (lit "a")). repeat split.
  - simpl. lia.
Defined.

(** X8. Whatever the remote side answers, a run of [executeCode] leaves
    no event at all, or the submission request followed by at most 30
    complete poll cycles, each a delay of 1000 ms and then one status
    request; the remote side is left as it was. *)
Theorem executeCode_events :
  forall JSON_parse_submission JSON_parse_result this
         languageId sourceCode stdin w,
    exists events,
      snd (executeCode JSON_parse_submission JSON_parse_result this
             languageId sourceCode stdin w)
      = mkWorld (remote w) (trace w ++ events)
      /\ (events = []
          \/ exists source64 stdin64 token k,
               (k <= 30)%nat
               /\ events
                  = Fetch (submission_request this languageId source64 stdin64)
                    :: poll_events this token k).
Proof.
  intros ps pr this languageId sourceCode stdin w.
  unfold executeCode, Http.try_catch, Http.bind.
  destruct (submitCode_world this ps languageId sourceCode stdin w)
    as [(e & ->) | (Hkey & s64 & i64 & Hw)].
  - exists []. rewrite translate_world, app_nil_r.
    split; [now destruct w | now left].
  - destruct (submitCode ps this languageId sourceCode stdin w)
      as [[token|e] w1]; cbn [snd] in Hw; subst w1.
    + destruct (poll_cycles pr this Hkey maxAttempts token
                  (record (Fetch (submission_request this languageId s64 i64)) w))
        as (k & Hk & Hp).
      exists (Fetch (submission_request this languageId s64 i64)
              :: poll_events this token k).
      split; [|right; exists s64, i64, token, k; split; [exact Hk|reflexivity]].
      destruct (poll pr this maxAttempts token _) as [[text|e] w2];
        cbn [snd] in Hp; subst w2; rewrite ?translate_world;
        unfold after_polls, record; cbn [remote trace];
        now rewrite <- app_assoc.
    + exists [Fetch (submission_request this languageId s64 i64)].
      rewrite translate_world. split; [reflexivity|].
      right. exists s64, i64, [], 0%nat. split; [lia | reflexivity].
Qed.

(** X9. A source text with an unpaired surrogate, or an input with one,
    makes [submitCode] throw the error of [btoa] before anything is sent:
    the world is left as it was. *)
Theorem submitCode_refuses_ill_formed_text :
  forall JSON_parse_submission this languageId sourceCode stdin w,
    truthy_string (apiKey this) = true ->
    Forall (fun c => c < 65536) sourceCode ->
    Forall (fun c => c < 65536) stdin ->
    (well_formed sourceCode && well_formed stdin) = false ->
    submitCode JSON_parse_submission this languageId sourceCode stdin w
    = (Throw invalid_character_btoa, w).
Proof.
  intros ps this languageId sourceCode stdin w Hkey Hsrc Hin Hwf.
  unfold submitCode. rewrite Hkey. cbn [negb].
  unfold Http.try_catch, Http.bind, lift.
  destruct (well_formed sourceCode) eqn:Hs.
  - rewrite (encodeBase64_utf8 _ Hs). cbn [andb] in Hwf.
    destruct stdin as [|c t]; [discriminate|]. cbn [truthy_string].
    destruct (ill_formed_refused _ Hin Hwf) as [He Hb].
    unfold encodeBase64 at 1, btoa, JS.try_catch. rewrite He, Hb. reflexivity.
  - destruct (ill_formed_refused _ Hsrc Hs) as [He Hb].
    unfold encodeBase64 at 1, btoa, JS.try_catch. rewrite He, Hb. reflexivity.
Qed.

Lemma submitCode_refuses_ill_formed_text_witness :
  submitCode Sample.parse_token Sample.service 71 (lit "print(1)") [55357]
    Sample.accepting
  = (Throw invalid_character_btoa, Sample.accepting).
Proof.
  apply submitCode_refuses_ill_formed_text;
    [reflexivity | | | reflexivity]; repeat constructor.
Defined.

(** X10. A submission answered with the HTTP status 401, 403 or 429 never
    makes [executeCode] throw: after that one request it returns one of
    the three guidance texts, and for the status 401 the text on the API
    key, whatever the body says. *)
Theorem executeCode_rejected_submission :
  forall JSON_parse_submission JSON_parse_result this
         languageId sourceCode stdin w rq resp,
    truthy_string (apiKey this) = true ->
    submission_answered this languageId sourceCode stdin w rq resp ->
    In (Http.status resp) [401; 403; 429]%Z ->
    exists advice,
      executeCode JSON_parse_submission JSON_parse_result this
        languageId sourceCode stdin w
      = (Ok advice, record (Fetch rq) w)
      /\ In advice [invalid_key_text; forbidden_text; rate_limit_text]
      /\ (Http.status resp = 401%Z -> advice = invalid_key_text).
Proof.
  intros ps pr this languageId sourceCode stdin w rq resp Hkey Hans Hst.
  unfold executeCode, Http.try_catch, Http.bind.
  rewrite (submitCode_answered ps this Hkey _ _ _ _ _ _ Hans).
  assert (Hok : ok resp = false).
  { unfold ok. destruct Hst as [<-|[<-|[<-|[]]]]; reflexivity. }
  rewrite Hok. unfold translate. cbn [instanceof_Error exn_class message].
  set (msg := match ps (text resp) with
              | Ok d => append_detail (append_detail (http_error resp) (error d))
                          (reply_message d)
              | Throw _ => http_error resp ++ lit " - " ++ text resp
              end).
  assert (Hmsg : forall p, includes (http_error resp) p = true ->
                           includes msg p = true).
  { intros p Hp. unfold msg. destruct (ps (text resp)) as [d|e].
    - now do 2 apply append_detail_keeps.
    - now apply includes_app_l. }
  assert (Hcode : includes msg (Number_toString (Http.status resp)) = true).
  { apply Hmsg. unfold http_error. apply includes_suffix. }
  destruct (includes msg (lit "401")) eqn:H401.
  { exists invalid_key_text. cbn. auto. }
  destruct Hst as [E|[E|[E|[]]]]; rewrite <- E in Hcode.
  - change (Number_toString 401) with (lit "401") in Hcode. congruence.
  - change (Number_toString 403) with (lit "403") in Hcode. rewrite Hcode.
    exists forbidden_text. cbn. split; [reflexivity|]. split; [auto|].
    intros E'. rewrite <- E in E'. discriminate.
  - change (Number_toString 429) with (lit "429") in Hcode.
    destruct (includes msg (lit "403")).
    + exists forbidden_text. cbn. split; [reflexivity|]. split; [auto|].
      intros E'. rewrite <- E in E'. discriminate.
    + rewrite Hcode. exists rate_limit_text. cbn.
      split; [reflexivity|]. split; [auto|].
      intros E'. rewrite <- E in E'. discriminate.
Qed.

Lemma executeCode_rejected_submission_witness :
  exists advice,
    executeCode Sample.parse_token (fun _ => Ok Sample.processing)
      Sample.service 71 (lit "print(1)") []
      (Sample.answering 429 (lit "Too Many Requests"))
    = (Ok advice,
       record (Fetch (submission_request Sample.service 71
                        (lit "cHJpbnQoMSk=") []))
         (Sample.answering 429 (lit "Too Many Requests")))
    /\ In advice [invalid_key_text; forbidden_text; rate_limit_text].
Proof.
  destruct (executeCode_rejected_submission Sample.parse_token
              (fun _ => Ok Sample.processing) Sample.service 71
              (lit "print(1)") []
              (Sample.answering 429 (lit "Too Many Requests"))
              (submission_request Sample.service 71 (lit "cHJpbnQoMSk=") [])
              (mkResponse 429 (lit "Too Many Requests")) eq_refl)
    as (advice & Hrun & Hin & _).
  - exists (lit "cHJpbnQoMSk="), []. repeat split.
  - simpl. auto.
  - exists advice. split; [exact Hrun | exact Hin].
Defined.

(** X11. The catch-all reads the whole message, body included: a
    submission rejected with any status whose body is not JSON and holds
    "401" comes back as the text on the API key. *)
Theorem executeCode_reads_the_body :
  forall JSON_parse_submission JSON_parse_result this
         languageId sourceCode stdin w rq resp e,
    truthy_string (apiKey this) = true ->
    submission_answered this languageId sourceCode stdin w rq resp ->
    ok resp = false ->
    JSON_parse_submission (text resp) = Throw e ->
    includes (text resp) (lit "401") = true ->
    executeCode JSON_parse_submission JSON_parse_result this
      languageId sourceCode stdin w
    = (Ok invalid_key_text, record (Fetch rq) w).
Proof.
  intros ps pr this languageId sourceCode stdin w rq resp e
         Hkey Hans Hok Hparse Hbody.
  unfold executeCode, Http.try_catch, Http.bind.
  rewrite (submitCode_answered ps this Hkey _ _ _ _ _ _ Hans).
  rewrite Hok, Hparse. unfold translate.
  cbn [instanceof_Error exn_class message].
  replace (includes _ (lit "401")) with true; [reflexivity|].
  symmetry. now do 2 apply includes_app_r.
Qed.

Lemma executeCode_reads_the_body_witness :
  executeCode Sample.parse_token (fun _ => Ok Sample.processing)
    Sample.service 71 (lit "print(1)") []
    (Sample.answering 500 (lit "upstream said 401"))
  = (Ok invalid_key_text,
     record (Fetch (submission_request Sample.service 71
                      (lit "cHJpbnQoMSk=") []))
       (Sample.answering 500 (lit "upstream said 401"))).
Proof.
  apply (executeCode_reads_the_body Sample.parse_token
           (fun _ => Ok Sample.processing) Sample.service 71
           (lit "print(1)") [] (Sample.answering 500 (lit "upstream said 401"))
           (submission_request Sample.service 71 (lit "cHJpbnQoMSk=") [])
           (mkResponse 500 (lit "upstream said 401")) Sample.syntax_error);
    try reflexivity.
  exists (lit "cHJpbnQoMSk="), []. repeat split.
Defined.

Lemma translate_throws e w e' w' :
  translate e w = (Throw e', w') -> e' = e /\ w' = w /\ guidance e = None.
Proof.
  unfold translate, guidance.
  replace (instanceof_Error e) with true
    by (unfold instanceof_Error; destruct (exn_class e); reflexivity).
  repeat match goal with
         | |- context [includes ?m ?p] => destruct (includes m p)
         end; unfold ret, throw; intros [= <- <-]; auto.
Qed.

(** X12. What [executeCode] throws is never an error it has a text for:
    the message of a thrown error holds none of "401", "403", "429" and
    "API key not configured". *)
Theorem executeCode_throws_unrecognized_only :
  forall JSON_parse_submission JSON_parse_result this
         languageId sourceCode stdin w e w',
    executeCode JSON_parse_submission JSON_parse_result this
      languageId sourceCode stdin w = (Throw e, w') ->
    includes (message e) (lit "401") = false
    /\ includes (message e) (lit "403") = false
    /\ includes (message e) (lit "429") = false
    /\ includes (message e) (lit "API key not configured") = false.
Proof.
  intros ps pr this languageId sourceCode stdin w e w'.
  unfold executeCode, Http.try_catch.
  destruct (Http.bind _ _ w) as [[text|e0] w0]; [discriminate|].
  intros H. apply translate_throws in H as (-> & _ & H).
  unfold guidance in H.
  repeat match type of H with
         | context [includes ?m ?p] => destruct (includes m p)
         end; try discriminate. auto.
Qed.

Lemma executeCode_throws_unrecognized_only_witness :
  includes (lit "Failed to fetch") (lit "API key not configured") = false.
Proof.
  apply (executeCode_throws_unrecognized_only Sample.parse_token
           (fun _ => Ok Sample.processing) Sample.service 71
           (lit "print(1)") [] Sample.unreachable
           (mkExn TypeError (lit "Failed to fetch"))
           (record (Fetch (submission_request Sample.service 71
                             (lit "cHJpbnQoMSk=") []))
              Sample.unreachable)).
  reflexivity.
Defined.

(* ------------------------------------------------------------------ *)
(** ** The editor component *)

Lemma string_eq_eq a : forall b, Editor.string_eq a b = true <-> a = b.
Proof.
  induction a as [|x a IH]; intros [|y b]; cbn [Editor.string_eq];
    try (split; [discriminate | discriminate]); [tauto|].
  rewrite andb_true_iff, N.eqb_eq, IH.
  split; [intros [-> ->]; reflexivity | intros [= -> ->]; auto].
Qed.

(** X13. [loadTemplates] never reports a failure: whatever the resource
    store answers, the output text is left as it was, the loading flag is
    cleared, the list is the descriptors that loaded, and the first of
    them becomes current with its starter code and example input; the
    selected language name is not touched. With no descriptor at all the
    current template, the code and the input stay as they were. *)
Theorem loadTemplates_outcome :
  forall response_json st w,
    let loaded :=
      TemplateSpec.loaded response_json (remote w) (requests_sent w)
        Templates.languages in
    let st' := fst (Editor.loadTemplates response_json st w) in
    Editor.isLoading st' = false
    /\ Editor.output st' = Editor.output st
    /\ Editor.selectedLanguage st' = Editor.selectedLanguage st
    /\ Editor.isRunning st' = Editor.isRunning st
    /\ Editor.templates st' = loaded
    /\ match loaded with
       | first :: _ =>
         Editor.currentTemplate st' = Some first
         /\ Editor.code st' = Templates.defaultCode first
         /\ Editor.input st' = Templates.exampleInput first
       | [] =>
         Editor.currentTemplate st' = Editor.currentTemplate st
         /\ Editor.code st' = Editor.code st
         /\ Editor.input st' = Editor.input st
       end
    /\ snd (Editor.loadTemplates response_json st w)
       = mkWorld (remote w)
           (trace w ++ TemplateSpec.requests_for Templates.languages).
Proof.
  intros rj st w loaded st'. subst st'. unfold Editor.loadTemplates.
  unfold Templates.loadAllTemplates. rewrite load_each_loaded.
  cbn [app]. fold loaded. destruct loaded as [|first rest]; cbn; auto 10.
Qed.

(** X14. [runCode] writes the output text and the running flag only.
    Without a current template it shows "Error: No template selected" and
    sends nothing. With one it runs [executeCode] on the identifier of the
    template, the code and the input, clears the running flag, and shows
    the returned text, or "Error: " and the message of the thrown error;
    the setup instructions are never added, as no error [executeCode]
    throws holds "API key not configured". *)
Theorem runCode_outcome :
  forall JSON_parse_submission JSON_parse_result env st w,
    let st' :=
      fst (Editor.runCode JSON_parse_submission JSON_parse_result env st w) in
    let w' :=
      snd (Editor.runCode JSON_parse_submission JSON_parse_result env st w) in
    Editor.templates st' = Editor.templates st
    /\ Editor.selectedLanguage st' = Editor.selectedLanguage st
    /\ Editor.currentTemplate st' = Editor.currentTemplate st
    /\ Editor.code st' = Editor.code st
    /\ Editor.input st' = Editor.input st
    /\ Editor.isLoading st' = Editor.isLoading st
    /\ match Editor.currentTemplate st with
       | None =>
         Editor.output st' = lit "Error: No template selected"
         /\ Editor.isRunning st' = Editor.isRunning st
         /\ w' = w
       | Some template =>
         Editor.isRunning st' = false
         /\ exists r,
              executeCode JSON_parse_submission JSON_parse_result
                (constructor env) (Templates.judge0Id template)
                (Editor.code st) (Editor.input st) w = (r, w')
              /\ Editor.output st'
                 = match r with
                   | Ok text => text
                   | Throw e => lit "Error: " ++ message e
                   end
       end.
Proof.
  intros ps pr env st w st' w'. subst st' w'. unfold Editor.runCode.
  destruct (Editor.currentTemplate st) as [template|] eqn:Hc; cbn; auto 10.
  unfold Editor.judge0Service.
  destruct (executeCode ps pr (constructor env) (Templates.judge0Id template)
              (Editor.code st) (Editor.input st) w) as [[text|e] w1] eqn:Hrun;
    cbn; repeat split; auto.
  - exists (Ok text). auto.
  - exists (Throw e). split; [reflexivity|].
    unfold executeCode, Http.try_catch in Hrun.
    destruct (Http.bind _ _ w) as [[t|e0] w0]; [discriminate|].
    apply translate_throws in Hrun as (-> & _ & Hg). unfold guidance in Hg.
    repeat match type of Hg with
           | context [includes ?m ?p] => destruct (includes m p) eqn:?
           end; try discriminate.
    reflexivity.
Qed.

Lemma executeCode_without_key ps pr env languageId sourceCode stdin w :
  present (NEXT_PUBLIC_JUDGE0_API_KEY env) = None ->
  executeCode ps pr (constructor env) languageId sourceCode stdin w
  = (Ok not_configured_text, w).
Proof.
  intros Hkey. apply constructor_no_key in Hkey.
  unfold executeCode, Http.try_catch, Http.bind, submitCode.
  rewrite Hkey. reflexivity.
Qed.

(** X15. Without a configured credential, running the code of a current
    template shows the text that asks for [NEXT_PUBLIC_JUDGE0_API_KEY],
    leaves the running flag cleared and sends no request. *)
Theorem runCode_not_configured :
  forall JSON_parse_submission JSON_parse_result env st w template,
    present (NEXT_PUBLIC_JUDGE0_API_KEY env) = None ->
    Editor.currentTemplate st = Some template ->
    Editor.runCode JSON_parse_submission JSON_parse_result env st w
    = (Editor.setIsRunning false (Editor.setOutput not_configured_text st), w).
Proof.
  intros ps pr env st w template Hkey Hc.
  unfold Editor.runCode, Editor.judge0Service. rewrite Hc.
  rewrite (executeCode_without_key ps pr env _ _ _ _ Hkey).
  destruct st; reflexivity.
Qed.

Lemma runCode_not_configured_witness :
  Editor.output
    (fst (Editor.runCode Sample.parse_token (fun _ => Ok Sample.processing)
            Sample.unconfigured Scenario.editing_python Sample.accepting))
  = not_configured_text.
Proof.
  rewrite (runCode_not_configured Sample.parse_token
             (fun _ => Ok Sample.processing) Sample.unconfigured
             Scenario.editing_python Sample.accepting
             Scenario.python_template eq_refl eq_refl).
  reflexivity.
Defined.

Lemma find_by_value language ts :
  match find (fun t => Editor.string_eq (Templates.value t) language) ts with
  | Some t => In t ts /\ Templates.value t = language
  | None => forall t, In t ts -> Templates.value t <> language
  end.
Proof.
  destruct (find _ ts) as [t|] eqn:E.
  - apply find_some in E as [Hin Heq]. now apply string_eq_eq in Heq.
  - intros t Hin Heq. apply (find_none _ _ E) in Hin.
    apply string_eq_eq in Heq. congruence.
Qed.

(** X16. [handleLanguageChange] always records the chosen name as the
    selected language and keeps the list of templates and both flags.
    When a listed template has that name as value, a listed template with
    that value becomes current, with its starter code, its example input
    and the idle output text; when none has, the current template, the
    code, the input and the output stay as they were. *)
Theorem handleLanguageChange_outcome :
  forall language st,
    let st' := Editor.handleLanguageChange language st in
    Editor.selectedLanguage st' = language
    /\ Editor.templates st' = Editor.templates st
    /\ Editor.isRunning st' = Editor.isRunning st
    /\ Editor.isLoading st' = Editor.isLoading st
    /\ ((exists t, In t (Editor.templates st) /\ Templates.value t = language) ->
        exists t,
          In t (Editor.templates st) /\ Templates.value t = language
          /\ Editor.currentTemplate st' = Some t
          /\ Editor.code st' = Templates.defaultCode t
          /\ Editor.input st' = Templates.exampleInput t
          /\ Editor.output st' = Editor.idle_text)
    /\ ((forall t, In t (Editor.templates st) -> Templates.value t <> language) ->
        Editor.currentTemplate st' = Editor.currentTemplate st
        /\ Editor.code st' = Editor.code st
        /\ Editor.input st' = Editor.input st
        /\ Editor.output st' = Editor.output st).
Proof.
  intros language st st'. subst st'. unfold Editor.handleLanguageChange.
  cbn [Editor.templates Editor.setSelectedLanguage].
  pose proof (find_by_value language (Editor.templates st)) as H.
  destruct (find _ (Editor.templates st)) as [t|]; cbn;
    do 4 (split; [reflexivity|]); split.
  - intros _. destruct H as [Hin Hv]. exists t. auto 10.
  - intros Hno. destruct H as [Hin Hv]. now destruct (Hno t Hin).
  - intros (t & Hin & Hv). now destruct (H t Hin).
  - auto.
Qed.

(** X17. The current template of the editor is one of the listed
    templates, and there is no current template exactly when the list is
    empty: [loadTemplates] sets this up from a state without current
    template, and [handleLanguageChange] and [runCode] keep it. So "Error:
    No template selected" is shown only when no descriptor loaded. *)
Theorem editor_keeps_current_listed :
  (forall response_json st w,
     Editor.currentTemplate st = None ->
     consistent (fst (Editor.loadTemplates response_json st w)))
  /\ (forall language st,
        consistent st -> consistent (Editor.handleLanguageChange language st))
  /\ (forall JSON_parse_submission JSON_parse_result env st w,
        consistent st ->
        consistent (fst (Editor.runCode JSON_parse_submission JSON_parse_result
                           env st w))).
Proof.
  unfold consistent, current_is_listed. split; [|split].
  - intros rj st w Hc. unfold Editor.loadTemplates, Templates.loadAllTemplates.
    rewrite load_each_loaded. cbn [app].
    destruct (TemplateSpec.loaded rj (remote w) (requests_sent w)
                Templates.languages) as [|first rest]; cbn; rewrite ?Hc.
    + tauto.
    + split; [now left|]. split; discriminate.
  - intros language st [Hl Hn]. unfold Editor.handleLanguageChange.
    cbn [Editor.templates Editor.setSelectedLanguage].
    pose proof (find_by_value language (Editor.templates st)) as H.
    destruct (find _ (Editor.templates st)) as [t|]; cbn.
    + destruct H as [Hin _]. split; [exact Hin|].
      split; [discriminate|]. intros E. rewrite E in Hin. destruct Hin.
    + split; [exact Hl | exact Hn].
  - intros ps pr env st w [Hl Hn]. unfold Editor.runCode.
    destruct (Editor.currentTemplate st) as [t|] eqn:Hc; cbn.
    + destruct (executeCode _ _ _ _ _ _ w) as [[text|e] w1]; cbn;
        rewrite Hc; split; auto.
    + rewrite Hc. split; auto.
Qed.

Lemma poll_fails_turn JSON_parse_result this n token w e :
  truthy_string (apiKey this) = true ->
  poll_fails JSON_parse_result this token w e ->
  poll JSON_parse_result this (S n) token w
  = (Throw e, after_poll this token w).
Proof.
  intros Hkey H.
  assert (H' : poll_fails JSON_parse_result this token
                 (record (Sleep 1000) w) e)
    by (unfold poll_fails in *; now rewrite requests_sent_sleep).
  clear H. rename H' into H. cbn [poll]. unfold Http.bind at 1. unfold sleep at 1.
  unfold Http.bind at 1, getResult. rewrite Hkey. cbn [negb].
  unfold Http.try_catch, Http.bind, fetch, poll_fails in *.
  destruct (remote (record (Sleep 1000) w) _ (result_request this token))
    as [e'|resp]; [subst; reflexivity|].
  destruct (ok resp); cbn [negb].
  - unfold lift. rewrite H. reflexivity.
  - subst e. reflexivity.
Qed.

(** X18. A status request that fails is not tried again: when, after [k]
    pending polls ([k] below 30), the next status request is rejected,
    answered with a status that is not [ok] or with a body that is not
    JSON, [executeCode] ends with that poll cycle and gives what the
    catch-all makes of the error. *)
Theorem executeCode_failed_poll :
  forall JSON_parse_submission JSON_parse_result this
         languageId sourceCode stdin w token w1 k e,
    truthy_string (apiKey this) = true ->
    submitCode JSON_parse_submission this languageId sourceCode stdin w
      = (Ok token, w1) ->
    (k < 30)%nat ->
    polls_pending JSON_parse_result this token w1 k ->
    poll_fails JSON_parse_result this token (after_polls this token k w1) e ->
    executeCode JSON_parse_submission JSON_parse_result this
      languageId sourceCode stdin w
    = translate e (after_polls this token (S k) w1).
Proof.
  intros ps pr this languageId sourceCode stdin w token w1 k e
         Hkey Hsub Hk Hpend Hfail.
  unfold executeCode, Http.try_catch, Http.bind. rewrite Hsub.
  replace maxAttempts with (k + S (29 - k))%nat by (unfold maxAttempts; lia).
  rewrite (poll_after_pending pr this Hkey k _ _ _ Hpend).
  rewrite (poll_fails_turn pr this _ _ _ e Hkey Hfail).
  now rewrite after_polls_last.
Qed.

Lemma executeCode_failed_poll_witness :
  executeCode Sample.parse_token Scenario.parse_by_first_letter Sample.service
    71 (lit "print(1)") [] Scenario.lost_after_one_poll
  = (Throw (mkExn TypeError (lit "Failed to fetch")),
     after_polls Sample.service (lit "tok") 2
       (record (Fetch (submission_request Sample.service 71
                         (lit "cHJpbnQoMSk=") []))
          Scenario.lost_after_one_poll)).
Proof.
  rewrite (executeCode_failed_poll Sample.parse_token
             Scenario.parse_by_first_letter Sample.service 71
             (lit "print(1)") [] Scenario.lost_after_one_poll (lit "tok")
             (record (Fetch (submission_request Sample.service 71
                               (lit "cHJpbnQoMSk=") []))
                Scenario.lost_after_one_poll)
             1 (mkExn TypeError (lit "Failed to fetch")) eq_refl eq_refl).
  - reflexivity.
  - lia.
  - intros [|j] Hj; [|lia].
    exists (mkResponse 200 (lit "p")), Sample.processing.
    repeat split; simpl; lia.
  - reflexivity.
Defined.
